(** * PHENICX-Anechoic loader: a shallow embedding of
    [mirdata/datasets/phenicx_anechoic.py] and the properties of its
    [Track] and [MultiTrack] classes.

    Python values are modelled as follows.
    - [str] is [string]; comparison of strings is by code point
      ([String.leb]), which is what [sorted] uses.
    - A [dict] is an association list in insertion order; its keys are
      pairwise distinct.
    - A raised exception is the [Raise] branch of [result]; the exception
      classes that the module can raise are the constructors of [exn].
    - The disk is a partial map from paths to file contents. *)

From Stdlib Require Import String Ascii List Bool Arith ZArith QArith Lia.
From Stdlib Require Import Permutation Sorted.
Import ListNotations.
Local Open Scope list_scope.
Local Open Scope string_scope.

(** ** Exceptions and the error monad *)

Module Py.

Inductive exn : Type :=
| ValueError
| AssertionError
| IOError
| IndexError
| KeyError
| TypeError
| NameError
| LengthMismatchError.

Inductive result (A : Type) : Type :=
| Ok (a : A)
| Raise (e : exn).

Arguments Ok {A} a.
Arguments Raise {A} e.

Definition bind {A B : Type} (r : result A) (k : A -> result B) : result B :=
  match r with
  | Ok a => k a
  | Raise e => Raise e
  end.

(** [for x in xs: f x], collecting the values; the first exception ends
    the loop. *)
Fixpoint mapM {A B : Type} (f : A -> result B) (xs : list A)
  : result (list B) :=
  match xs with
  | [] => Ok []
  | x :: xs' =>
      bind (f x) (fun y => bind (mapM f xs') (fun ys => Ok (y :: ys)))
  end.

Definition is_ok {A : Type} (r : result A) : bool :=
  match r with Ok _ => true | Raise _ => false end.

End Py.

Export Py.

Declare Scope py_scope.
Delimit Scope py_scope with py.
Notation "x <- c ;; k" := (Py.bind c (fun x => k))
  (at level 61, c at next level, right associativity) : py_scope.
Local Open Scope py_scope.

(** ** Python string operations *)

Module PyStr.

(** [sub in s] *)
Fixpoint contains (sub s : string) : bool :=
  prefix sub s ||
  match s with
  | EmptyString => false
  | String _ s' => contains sub s'
  end.

(** [s.replace(old, new)] for a non-empty [old]: occurrences are replaced
    from the left and do not overlap.  [skip] counts the characters of a
    matched occurrence that are still to be dropped. *)
Fixpoint replace_from (old new : string) (skip : nat) (s : string) : string :=
  match s with
  | EmptyString => EmptyString
  | String c s' =>
      match skip with
      | S k => replace_from old new k s'
      | O =>
          if prefix old s
          then new ++ replace_from old new (String.length old - 1) s'
          else String c (replace_from old new 0 s')
      end
  end.

(** With an empty [old], Python inserts [new] before every character and
    at the end. *)
Fixpoint interleave (new s : string) : string :=
  new ++ match s with
         | EmptyString => EmptyString
         | String c s' => String c (interleave new s')
         end.

Definition replace (old new s : string) : string :=
  match old with
  | EmptyString => interleave new s
  | _ => replace_from old new 0 s
  end.

(** [s.split(c)] for a one-character separator. *)
Fixpoint split (c : ascii) (s : string) : list string :=
  match s with
  | EmptyString => [EmptyString]
  | String a s' =>
      if Ascii.eqb a c then EmptyString :: split c s'
      else match split c s' with
           | h :: t => String a h :: t
           | [] => [String a EmptyString]
           end
  end.

(** [sep.join(ls)] *)
Definition join (sep : string) (ls : list string) : string :=
  String.concat sep ls.

(** [s.strip(chars)]: characters of the set [chars] are removed at both
    ends. *)
Fixpoint lstrip (chars : ascii -> bool) (s : string) : string :=
  match s with
  | EmptyString => EmptyString
  | String a s' => if chars a then lstrip chars s' else s
  end.

Fixpoint rstrip (chars : ascii -> bool) (s : string) : string :=
  match s with
  | EmptyString => EmptyString
  | String a s' =>
      match rstrip chars s' with
      | EmptyString => if chars a then EmptyString else String a EmptyString
      | r => String a r
      end
  end.

Definition strip (chars : ascii -> bool) (s : string) : string :=
  rstrip chars (lstrip chars s).

Definition newline : ascii := "010"%char.

Definition carriage_return : ascii := "013"%char.

Definition is_newline (a : ascii) : bool := Ascii.eqb a newline.

Definition is_crlf (a : ascii) : bool :=
  Ascii.eqb a newline || Ascii.eqb a carriage_return.

(** The whitespace that [float] ignores around a literal. *)
Definition is_space (a : ascii) : bool :=
  let n := nat_of_ascii a in
  (n =? 32)%nat || ((9 <=? n)%nat && (n <=? 13)%nat).

(** [f.readlines()]: the lines of a text file, each with its terminating
    newline when it has one. *)
Fixpoint readlines_from (cur : string) (s : string) : list string :=
  match s with
  | EmptyString =>
      match cur with EmptyString => [] | _ => [cur] end
  | String a s' =>
      if Ascii.eqb a newline
      then (cur ++ String a EmptyString) :: readlines_from EmptyString s'
      else readlines_from (cur ++ String a EmptyString) s'
  end.

Definition readlines (s : string) : list string := readlines_from EmptyString s.

(** ASCII lower-casing, used for [re.IGNORECASE]. *)
Definition lower_ascii (a : ascii) : ascii :=
  let n := nat_of_ascii a in
  if (65 <=? n)%nat && (n <=? 90)%nat then ascii_of_nat (n + 32) else a.

Fixpoint lower (s : string) : string :=
  match s with
  | EmptyString => EmptyString
  | String a s' => String (lower_ascii a) (lower s')
  end.

Fixpoint ends_with_char (c : ascii) (s : string) : bool :=
  match s with
  | EmptyString => false
  | String a EmptyString => Ascii.eqb a c
  | String _ s' => ends_with_char c s'
  end.

Fixpoint mem (x : string) (l : list string) : bool :=
  match l with
  | [] => false
  | y :: l' => String.eqb y x || mem x l'
  end.

(** [sorted(l)] on strings.  Python's sort is stable; on strings equal
    elements are identical, so insertion from the right gives the same
    list. *)
Fixpoint insert_sorted (x : string) (l : list string) : list string :=
  match l with
  | [] => [x]
  | y :: l' => if String.leb x y then x :: l else y :: insert_sorted x l'
  end.

Fixpoint sorted (l : list string) : list string :=
  match l with
  | [] => []
  | x :: l' => insert_sorted x (sorted l')
  end.

(** [list(set(l))]: one element per distinct value.  The iteration order
    of a Python set is not specified; every use below sorts the result. *)
Fixpoint dedup (l : list string) : list string :=
  match l with
  | [] => []
  | x :: l' => if mem x l' then dedup l' else x :: dedup l'
  end.

End PyStr.

(** ** [os.path] on POSIX paths *)

Module OsPath.

(** [os.path.join(a, b)] *)
Definition join (a b : string) : string :=
  if prefix "/" b then b
  else match a with
       | EmptyString => b
       | _ => if PyStr.ends_with_char "/"%char a then a ++ b else a ++ "/" ++ b
       end.

End OsPath.

(** ** The fragment of [re] that the module uses

    The only pattern the module compiles is ['|'.join(instruments)] with
    [re.IGNORECASE], and the only operation is [search].  The model reads
    the pattern as an alternation of literals: [search] succeeds when one
    of the alternatives occurs in the subject, the case of ASCII letters
    ignored; an empty alternative occurs in every subject.  This is what
    [re] does when the names are words of ASCII letters and digits and
    the subject is ASCII text.  A name with other characters is a regular
    expression of its own in the source, which may match otherwise or
    fail to compile; no property below is stated for such names, except
    where the matcher plays no part. *)

Module Re.

Definition alternatives (pattern : string) : list string :=
  PyStr.split "|"%char pattern.

Definition search_ignorecase (pattern subject : string) : bool :=
  existsb (fun alt => PyStr.contains (PyStr.lower alt) (PyStr.lower subject))
          (alternatives pattern).

End Re.

(** ** The dataset index

    [DATA.index] is loaded from [phenicx_anechoic_index.json] by code
    outside this module.  A file reference is the pair [[path, checksum]];
    [v[0]] is its path. *)

Definition file_ref : Type := (string * string)%type.

Definition ref_path (v : file_ref) : string := fst v.

(** [index['tracks'][track_id]]: a dict from file keys (['audio_1'],
    ['notes'], ['notes_original'], ...) to file references. *)
Definition track_paths : Type := list (string * file_ref).

(** [DATA.index['multitracks'][mtrack_id]]: the entry ['tracks'], a dict
    keyed by sub-track id, and the remaining keys in insertion order, each
    with a file reference (among them the ['score-<instrument>'] keys).
    The key ['tracks'] does not contain ['score-'], so its place among the
    other keys has no effect on the comprehensions that filter on
    ['score-']. *)
Record multitrack_entry : Type := {
  mt_tracks : list (string * track_paths);
  mt_files : list (string * file_ref)
}.

Record dataset_index : Type := {
  ix_tracks : list (string * track_paths);
  ix_multitracks : list (string * multitrack_entry)
}.

(** [d[k]] / [k in d] on a dict. *)
Fixpoint assoc {V : Type} (k : string) (d : list (string * V)) : option V :=
  match d with
  | [] => None
  | (k', v) :: d' => if String.eqb k' k then Some v else assoc k d'
  end.

Definition keys {V : Type} (d : list (string * V)) : list string := map fst d.

(** [[k for k, v in sorted(d.items())]]: the keys of a dict are pairwise
    distinct, so the order of the pairs is the order of their keys. *)
Definition sorted_keys {V : Type} (d : list (string * V)) : list string :=
  PyStr.sorted (keys d).

Definition DATASET_SECTIONS : list (string * string) :=
  [ ("doublebass", "strings");
    ("cello", "strings");
    ("clarinet", "woodwinds");
    ("viola", "strings");
    ("violin", "strings");
    ("oboe", "woodwinds");
    ("flute", "woodwinds");
    ("trumpet", "brass");
    ("bassoon", "woodwinds");
    ("horn", "brass") ].

(** ** The disk *)

(** Text files: [None] when the path does not exist. *)
Definition text_disk : Type := string -> option string.

(** Audio files, by what the decoder ([librosa.load(path, sr=None,
    mono=True)]) returns for them: a one-dimensional sample buffer and a
    sample rate.  [None] when the path does not exist. *)
Definition audio_disk (sample : Type) : Type :=
  string -> option (list sample * N).

(** Arithmetic on samples.  The operations are those of the array type
    that the decoder returns; nothing is assumed about them. *)
Class SampleOps (sample : Type) : Type := {
  s_zero : sample;
  s_add : sample -> sample -> sample;
  s_mul : sample -> sample -> sample;
  s_div_count : sample -> nat -> sample
}.

(** ** [load_audio] *)

(** Modelled from the spec: the decorator [io.coerce_to_bytes_io] is
    defined outside this module.  It passes the decorated function the
    file at the path it is called with; a path that is missing at access
    time fails with the file-not-found error. *)
Definition coerce_to_bytes_io {F A : Type} (disk : string -> option F)
    (func : F -> result A) (path : string) : result A :=
  match disk path with
  | None => Raise IOError
  | Some fhandle => func fhandle
  end.

(** The body of [load_audio(fhandle)].  Its first statement evaluates
    [os.path.exists(audio_path)]; the name [audio_path] is bound neither
    in the function, whose parameter is [fhandle], nor in the module, so
    the body raises NameError whatever it is given. *)
Definition load_audio_body {sample : Type} (fhandle : list sample * N)
  : result (list sample * N) :=
  Raise NameError.

Definition load_audio {sample : Type} (disk : audio_disk sample)
    (path : string) : result (list sample * N) :=
  coerce_to_bytes_io disk load_audio_body path.

(** ** numpy helpers on one-dimensional arrays *)

Module Np.

Fixpoint zip_with {A B C : Type} (f : A -> B -> C) (xs : list A) (ys : list B)
  : list C :=
  match xs, ys with
  | x :: xs', y :: ys' => f x y :: zip_with f xs' ys'
  | _, _ => []
  end.

(** [a += b] on one-dimensional arrays: element by element when the
    shapes agree; a [b] of one element is broadcast; any other pair of
    shapes is a ValueError. *)
Definition iadd {sample : Type} `{SampleOps sample}
    (a b : list sample) : result (list sample) :=
  if (length b =? length a)%nat then Ok (zip_with s_add a b)
  else match b with
       | [y] => Ok (map (fun x => s_add x y) a)
       | _ => Raise ValueError
       end.

(** [np.concatenate(arrays)]: at least one array is needed. *)
Definition concatenate {A : Type} (arrays : list (list A)) : result (list A) :=
  match arrays with
  | [] => Raise ValueError
  | _ => Ok (concat arrays)
  end.

(** [np.argsort(keys)]: the indices in the order that sorts the keys.
    numpy leaves the order of equal keys unspecified; the model keeps
    them in index order. *)
Fixpoint insert_index (key : nat -> Q) (i : nat) (l : list nat) : list nat :=
  match l with
  | [] => [i]
  | j :: l' =>
      if Qle_bool (key i) (key j) then i :: l else j :: insert_index key i l'
  end.

Definition argsort (keys : list Q) : list nat :=
  fold_right (insert_index (fun i => nth i keys 0%Q)) []
             (seq 0 (length keys)).

(** [np.take_along_axis(arr, ind, axis=0)] on one-dimensional arrays. *)
Definition take_along_axis {A : Type} (arr : list A) (ind : list nat)
  : result (list A) :=
  mapM (fun i => match nth_error arr i with
                 | Some x => Ok x
                 | None => Raise IndexError
                 end) ind.

(** [np.stack(arrays, axis=-1)] on one-dimensional arrays: at least one
    array is needed and all must have one length; the result has a row
    per sample and, in each row, an entry per array. *)
Fixpoint zip_cons {A : Type} (column : list A) (rows : list (list A))
  : list (list A) :=
  match column, rows with
  | x :: column', r :: rows' => (x :: r) :: zip_cons column' rows'
  | _, _ => []
  end.

Fixpoint stacked_rows {A : Type} (n : nat) (arrays : list (list A))
  : list (list A) :=
  match arrays with
  | [] => repeat [] n
  | a :: arrays' => zip_cons a (stacked_rows n arrays')
  end.

Definition stack_last {A : Type} (arrays : list (list A))
  : result (list (list A)) :=
  match arrays with
  | [] => Raise ValueError
  | a :: rest =>
      if forallb (fun b => (length b =? length a)%nat) rest
      then Ok (stacked_rows (length a) arrays)
      else Raise ValueError
  end.

End Np.

(** ** Reading numbers

    [np.loadtxt] converts a field with [float].  A time is modelled by
    the rational number that its literal denotes; the literals read are
    [[sign] digits [. digits] [e [sign] digits]], with surrounding
    whitespace ignored.  ([inf], [nan] and hexadecimal literals, and the
    rounding of a literal to binary64, are not modelled; the order of
    finite binary64 numbers is the order of their values.) *)

Module PyFloat.

Definition digit_of (a : ascii) : option Z :=
  let n := nat_of_ascii a in
  if (48 <=? n)%nat && (n <=? 57)%nat then Some (Z.of_nat (n - 48)) else None.

(** The longest run of digits at the head of [s]: the number read (on top
    of [acc]), how many digits, and what follows. *)
Fixpoint digits (acc : Z) (cnt : nat) (s : string) : Z * nat * string :=
  match s with
  | EmptyString => (acc, cnt, s)
  | String a s' =>
      match digit_of a with
      | Some d => digits (10 * acc + d) (S cnt) s'
      | None => (acc, cnt, s)
      end
  end.

Definition read_sign (s : string) : bool * string :=
  match s with
  | String "-" s' => (true, s')
  | String "+" s' => (false, s')
  | _ => (false, s)
  end.

(** The exponent part: [None] when it is malformed. *)
Definition read_exponent (s : string) : option (Z * string) :=
  match s with
  | String c s' =>
      if Ascii.eqb c "e" || Ascii.eqb c "E" then
        let '(neg, s1) := read_sign s' in
        let '(e, n, s2) := digits 0 0 s1 in
        if (n =? 0)%nat then None
        else Some (if neg then (- e)%Z else e, s2)
      else Some (0%Z, s)
  | EmptyString => Some (0%Z, s)
  end.

Definition scale10 (m e : Z) : Q :=
  if (0 <=? e)%Z then inject_Z (m * 10 ^ e)
  else Qred (Qmake m (Z.to_pos (10 ^ (- e)))).

(** [float(s)]; [None] stands for the ValueError of an unreadable
    literal. *)
Definition parse (s : string) : option Q :=
  let s0 := PyStr.strip PyStr.is_space s in
  let '(neg, s1) := read_sign s0 in
  let '(ip, ni, s2) := digits 0 0 s1 in
  let '(m, nf, s3) :=
    match s2 with
    | String "." r => digits ip 0 r
    | _ => (ip, O, s2)
    end in
  if (ni + nf =? 0)%nat then None
  else match read_exponent s3 with
       | Some (e, EmptyString) =>
           Some (scale10 (if neg then (- m)%Z else m) (e - Z.of_nat nf))
       | _ => None
       end.

End PyFloat.

(** ** [np.loadtxt(path, delimiter=",", usecols=[0, 1])] *)

Module LoadTxt.

(** The array that [loadtxt] returns.  Without [ndmin], axes of length
    one are squeezed: a file with a single row gives a one-dimensional
    array of its two numbers, and a file without rows an empty
    one-dimensional array. *)
Inductive ndarray : Type :=
| Array1 (xs : list Q)
| Array2 (rows : list (Q * Q)).

(** The fields of a line: the text before a ['#'], without its line
    terminator, split at the delimiter; nothing for an empty line. *)
Definition split_line (line : string) : list string :=
  let code := hd EmptyString (PyStr.split "#"%char line) in
  match PyStr.strip PyStr.is_crlf code with
  | EmptyString => []
  | l => PyStr.split ","%char l
  end.

(** One line: no row for an empty line; the columns 0 and 1 converted
    with [float] otherwise. *)
Definition row (line : string) : result (option (Q * Q)) :=
  match split_line line with
  | [] => Ok None
  | vals =>
      match nth_error vals 0, nth_error vals 1 with
      | Some a, Some b =>
          match PyFloat.parse a, PyFloat.parse b with
          | Some x, Some y => Ok (Some (x, y))
          | _, _ => Raise ValueError
          end
      | _, _ => Raise IndexError
      end
  end.

Fixpoint present {A : Type} (l : list (option A)) : list A :=
  match l with
  | [] => []
  | Some x :: l' => x :: present l'
  | None :: l' => present l'
  end.

Definition squeeze (rows : list (Q * Q)) : ndarray :=
  match rows with
  | [] => Array1 []
  | [(a, b)] => Array1 [a; b]
  | _ => Array2 rows
  end.

Definition loadtxt (content : string) : result ndarray :=
  rs <- mapM row (PyStr.readlines content) ;;
  Ok (squeeze (present rs)).

(** [times[:, j]]: a one-dimensional array has no second axis. *)
Definition column (times : ndarray) (j : nat) : result (list Q) :=
  match times with
  | Array1 _ => Raise IndexError
  | Array2 rows =>
      match j with
      | O => Ok (map fst rows)
      | S O => Ok (map snd rows)
      | _ => Raise IndexError
      end
  end.

End LoadTxt.

(** ** [class Track] *)

Module Track.

Record t : Type := {
  track_id : string;
  _data_home : string;
  _track_paths : track_paths;
  instrument : string;
  piece : string;
  audio_paths : list string;
  n_voices : nat;
  notes_path : string;
  notes_original_path : string
}.

(** Modelled from the spec: [core.Track.__init__], the base-class
    constructor reached through [super().__init__], is not part of this
    module.  It fails with the invalid-id error when the sub-track id is
    absent from the index, and otherwise gives the track its id, its data
    home and its entry of file references. *)
Definition core_init (track_id : string) (index : dataset_index)
  : result track_paths :=
  match assoc track_id (ix_tracks index) with
  | None => Raise ValueError
  | Some paths => Ok paths
  end.

(** [d[key][0]] *)
Definition path_at (paths : track_paths) (key : string) : result string :=
  match assoc key paths with
  | None => Raise KeyError
  | Some v => Ok (ref_path v)
  end.

(** [seq[i]] *)
Definition item {A : Type} (l : list A) (i : nat) : result A :=
  match nth_error l i with
  | None => Raise IndexError
  | Some x => Ok x
  end.

(** [seq[i]] for any integer [i]: a negative index counts from the
    end. *)
Definition item_at {A : Type} (l : list A) (i : Z) : result A :=
  let j := if (i <? 0)%Z then (i + Z.of_nat (length l))%Z else i in
  if (j <? 0)%Z then Raise IndexError else item l (Z.to_nat j).

(** [Track.__init__(self, track_id, data_home, dataset_name, index,
    metadata)] *)
Definition init (track_id data_home dataset_name : string)
    (index : dataset_index) (metadata : unit) : result t :=
  paths <- core_init track_id index ;;
  instrument <- item (PyStr.split "-"%char track_id) 1 ;;
  piece <- item (PyStr.split "-"%char track_id) 0 ;;
  let audio_paths :=
    map (fun kv => OsPath.join data_home (ref_path (snd kv)))
        (filter (fun kv => PyStr.contains "audio_" (fst kv)) paths) in
  notes_path <- path_at paths "notes" ;;
  notes_original_path <- path_at paths "notes_original" ;;
  Ok {| track_id := track_id;
        _data_home := data_home;
        _track_paths := paths;
        instrument := instrument;
        piece := piece;
        audio_paths := audio_paths;
        n_voices := length audio_paths;
        notes_path := OsPath.join data_home notes_path;
        notes_original_path := OsPath.join data_home notes_original_path |}.

(** An argument of a call, before it is bound to a parameter. *)
Inductive arg : Type :=
| AStr (s : string)
| AIndex (index : dataset_index)
| ANone.

(** [Track(a1, ..., an)]: the positional arguments are bound to the five
    parameters of [__init__], none of which has a default.  A call with
    another number of arguments raises TypeError before the body runs. *)
Definition call (args : list arg) : result t :=
  match args with
  | [AStr track_id; AStr data_home; AStr dataset_name; AIndex index; _] =>
      init track_id data_home dataset_name index tt
  | _ => Raise TypeError
  end.

Section Audio.

Context {sample : Type} `{SampleOps sample}.

(** [load] stands for the module-level function [load_audio], which the
    property calls on each path. *)
Variable load : string -> result (list sample * N).

(** The body of the loop [for i in range(1, self.n_voices)]. *)
Definition add_voice (self : t) (audio_mix : list sample) (i : nat)
  : result (list sample) :=
  path <- item (audio_paths self) i ;;
  voice <- load path ;;
  Np.iadd audio_mix (fst voice).

Fixpoint add_voices (self : t) (audio_mix : list sample) (range : list nat)
  : result (list sample) :=
  match range with
  | [] => Ok audio_mix
  | i :: range' =>
      audio_mix' <- add_voice self audio_mix i ;;
      add_voices self audio_mix' range'
  end.

(** The property [audio]. *)
Definition audio (self : t) : result (list sample * N) :=
  path0 <- item (audio_paths self) 0 ;;
  first <- load path0 ;;
  audio_mix <- add_voices self (fst first) (seq 1 (n_voices self - 1)) ;;
  Ok (audio_mix, snd first).

(** [get_audio_voice(id_voice)] *)
Definition get_audio_voice (self : t) (id_voice : Z)
  : result (list sample * N) :=
  path <- item_at (audio_paths self) id_voice ;;
  load path.

End Audio.

End Track.

(** ** Score annotations *)

(** [utils.EventData(start_times, end_times, event)]: three parallel
    arrays; the i-th Event is the triple of their i-th elements. *)
Record EventData : Type := {
  start_times : list Q;
  end_times : list Q;
  event : list string
}.

Definition events (d : EventData) : list (Q * Q * string) :=
  combine (combine (start_times d) (end_times d)) (event d).

(** ** [class MultiTrack] *)

Module MultiTrack.

Record t : Type := {
  mtrack_id : string;
  _data_home : string;
  mtrack_ids : list string;
  tracks : list (string * Track.t);
  track_audio_property : string;
  instruments : list string;
  sections : list string
}.

(** The argument [instruments] of the accessors: one name or a list of
    names. *)
Inductive names : Type :=
| One (name : string)
| Many (l : list string).

(** [if isinstance(instruments, str): instruments = [instruments]] *)
Definition as_list (arg : names) : list string :=
  match arg with
  | One name => [name]
  | Many l => l
  end.

(** The names with a score entry: the keys that contain ['score-'], with
    every ['score-'] removed, sorted. *)
Definition derive_instruments (entry : multitrack_entry) : list string :=
  PyStr.sorted
    (map (PyStr.replace "score-" EmptyString)
         (filter (PyStr.contains "score-") (keys (mt_files entry)))).

(** The sections of the instruments present, as a sorted set. *)
Definition derive_sections (instruments : list string) : list string :=
  PyStr.sorted
    (PyStr.dedup
       (map snd
            (filter (fun kv => PyStr.mem (fst kv) instruments)
                    DATASET_SECTIONS))).

(** [MultiTrack.__init__(self, mtrack_id, data_home)], with [index] for
    the module-level [DATA.index].  [data_home] is the local path of the
    dataset; a MultiTrack without a data home (the default [None]) is
    outside the model. *)
Definition init (index : dataset_index) (mtrack_id data_home : string)
  : result t :=
  match assoc mtrack_id (ix_multitracks index) with
  | None => Raise ValueError
  | Some entry =>
      let ids := sorted_keys (mt_tracks entry) in
      tracks <- mapM (fun k =>
                        tr <- Track.call [Track.AStr mtrack_id; Track.AStr k;
                                          Track.AStr data_home] ;;
                        Ok (k, tr)) ids ;;
      let instruments := derive_instruments entry in
      Ok {| mtrack_id := mtrack_id;
            _data_home := data_home;
            mtrack_ids := ids;
            tracks := tracks;
            track_audio_property := "audio";
            instruments := instruments;
            sections := derive_sections instruments |}
  end.

(** [assert all(elem in self.instruments for elem in instruments)] *)
Definition all_known (self : t) (l : list string) : bool :=
  forallb (fun elem => PyStr.mem elem (instruments self)) l.

(** [re.compile('|'.join(instruments), re.IGNORECASE).search(subject)] *)
Definition names_match (l : list string) (subject : string) : bool :=
  Re.search_ignorecase (PyStr.join "|" l) subject.

(** [get_trackids(instruments)] *)
Definition get_trackids (self : t) (arg : names) : result (list string) :=
  let l := as_list arg in
  if all_known self l
  then Ok (filter (names_match l) (mtrack_ids self))
  else Raise AssertionError.

(** [[k for k, s in DATASET_SECTIONS.items() if s == section]] *)
Definition instruments_for_section (section : string) : list string :=
  map fst (filter (fun ks => String.eqb (snd ks) section) DATASET_SECTIONS).

Section Mixing.

Context {sample : Type} `{SampleOps sample}.

Definition pad (n : nat) (signal : list sample) : list sample :=
  signal ++ repeat s_zero (n - length signal).

Fixpoint weighted (weights : list sample) (signals : list (list sample))
  : list (list sample) :=
  match signals with
  | [] => []
  | s :: signals' =>
      match weights with
      | w :: weights' => map (s_mul w) s :: weighted weights' signals'
      | [] => s :: weighted [] signals'
      end
  end.

Definition longest (signals : list (list sample)) : nat :=
  fold_right Nat.max O (map (@length sample) signals).

Definition same_length (signals : list (list sample)) : bool :=
  forallb (fun s => (length s =? longest signals)%nat) signals.

(** The sum of the (scaled) signals, divided by their number when
    [average] is set. *)
Definition mix (signals : list (list sample)) (weights : option (list sample))
    (average : bool) : list sample :=
  let scaled := match weights with
                | None => signals
                | Some ws => weighted ws signals
                end in
  let total := fold_left (Np.zip_with s_add) scaled
                         (repeat s_zero (longest signals)) in
  if average then map (fun x => s_div_count x (length signals)) total
  else total.

(** Modelled from the spec: [core.MultiTrack.get_target], inherited from
    the base class, is not part of this module.  It decodes the audio of
    each sub-track (the attribute named by [track_audio_property]), scales
    each contribution by its weight when weights are given, and sums them,
    dividing by the number of sub-tracks when [average] is set.  Under
    [enforce_length] all buffers must have the same number of samples,
    else the call fails with a length-mismatch error; without it, shorter
    buffers count as zero beyond their end. *)
Definition get_target (disk : audio_disk sample) (self : t)
    (track_keys : list string) (weights : option (list sample))
    (average enforce_length : bool) : result (list sample) :=
  signals <- mapM (fun k =>
                     match assoc k (tracks self) with
                     | None => Raise KeyError
                     | Some tr =>
                         a <- Track.audio (load_audio disk) tr ;; Ok (fst a)
                     end) track_keys ;;
  if same_length signals then Ok (mix signals weights average)
  else if enforce_length then Raise LengthMismatchError
  else Ok (mix (map (pad (longest signals)) signals) weights average).

(** [get_audio_mix_instruments(instruments, weights=None, average=True,
    enforce_length=True)] *)
Definition get_audio_mix_instruments (disk : audio_disk sample) (self : t)
    (arg : names) (weights : option (list sample))
    (average enforce_length : bool) : result (list sample) :=
  ids <- get_trackids self arg ;;
  get_target disk self ids weights average enforce_length.

(** The property [audio_mix]. *)
Definition audio_mix (disk : audio_disk sample) (self : t)
  : result (list sample) :=
  get_audio_mix_instruments disk self (Many (instruments self))
                            None true false.

(** [get_audio_instruments(instruments, weights=None, average=True,
    enforce_length=True)]: each instrument is mixed on its own, always
    with [enforce_length=True], and the mixes are stacked. *)
Definition get_audio_instruments (disk : audio_disk sample) (self : t)
    (arg : names) (weights : option (list sample))
    (average enforce_length : bool) : result (list (list sample)) :=
  mixes <- mapM (fun instrument =>
                   get_audio_mix_instruments disk self (One instrument)
                                             weights average true)
                (as_list arg) ;;
  Np.stack_last mixes.

(** [get_audio_sections(sections, weights=None, average=True)] *)
Definition get_audio_sections (disk : audio_disk sample) (self : t)
    (arg : names) (weights : option (list sample)) (average : bool)
  : result (list (list sample)) :=
  mixes <- mapM (fun instruments =>
                   get_audio_mix_instruments disk self (Many instruments)
                                             weights average true)
                (map instruments_for_section (as_list arg)) ;;
  Np.stack_last mixes.

End Mixing.

(** What the loop of [get_score_mix_instruments] reads from one file. *)
Record score_file : Type := {
  sf_start : list Q;
  sf_end : list Q;
  sf_notes : list string
}.

(** [line.split(',')[2].strip('\n')] *)
Definition note_of_line (line : string) : result string :=
  field <- Track.item (PyStr.split ","%char line) 2 ;;
  Ok (PyStr.strip PyStr.is_newline field).

(** The parse of a score file's text: the two time columns through
    [np.loadtxt], then the note labels through [readlines]. *)
Definition parse_score (content : string) : result score_file :=
  times <- LoadTxt.loadtxt content ;;
  starts <- LoadTxt.column times 0 ;;
  ends <- LoadTxt.column times 1 ;;
  sc <- mapM note_of_line (PyStr.readlines content) ;;
  Ok {| sf_start := starts; sf_end := ends; sf_notes := sc |}.

(** One turn of the loop: the path is joined to the data home and must
    exist. *)
Definition read_score (disk : text_disk) (data_home path : string)
  : result score_file :=
  match disk (OsPath.join data_home path) with
  | None => Raise IOError
  | Some content => parse_score content
  end.

(** [[v[0] for k, v in entry.items() if 'score-' in k and
    re...search(v[0])]] *)
Definition score_paths (entry : multitrack_entry) (l : list string)
  : list string :=
  map (fun kv => ref_path (snd kv))
      (filter (fun kv => PyStr.contains "score-" (fst kv)
                         && names_match l (ref_path (snd kv)))
              (mt_files entry)).

(** The merge after the loop: concatenate, then order by start time. *)
Definition merge_scores (files : list score_file) : result EventData :=
  starts <- Np.concatenate (map sf_start files) ;;
  ends <- Np.concatenate (map sf_end files) ;;
  score <- Np.concatenate (map sf_notes files) ;;
  let ind := Np.argsort starts in
  starts' <- Np.take_along_axis starts ind ;;
  ends' <- Np.take_along_axis ends ind ;;
  score' <- Np.take_along_axis score ind ;;
  Ok {| start_times := starts'; end_times := ends'; event := score' |}.

(** [get_score_mix_instruments(instruments)], with [index] for the
    module-level [DATA.index]. *)
Definition get_score_mix_instruments (index : dataset_index)
    (disk : text_disk) (self : t) (arg : names) : result EventData :=
  let l := as_list arg in
  if all_known self l then
    match assoc (mtrack_id self) (ix_multitracks index) with
    | None => Raise KeyError
    | Some entry =>
        files <- mapM (read_score disk (_data_home self))
                      (score_paths entry l) ;;
        merge_scores files
    end
  else Raise AssertionError.

(** The property [scores]. *)
Definition scores (index : dataset_index) (disk : text_disk) (self : t)
  : result (list EventData) :=
  mapM (fun name => get_score_mix_instruments index disk self (One name))
       (instruments self).

End MultiTrack.

(** ** Score files as text

    A row is [start,end,label]; rows end with a newline, the last one
    possibly without. *)

Module ScoreText.

Definition two_rows : string :=
  "0.0,1.0,C4" ++ String PyStr.newline ("1.0,2.0,D4" ++ String PyStr.newline EmptyString).

Definition two_rows_open : string :=
  "0.0,1.0,C4" ++ String PyStr.newline "1.0,2.0,D4".

Definition three_rows : string :=
  "0.5,0.75,A4" ++ String PyStr.newline
    ("2.5,3.0,B4" ++ String PyStr.newline
       ("0.25,0.5,G4" ++ String PyStr.newline EmptyString)).

Definition one_row : string :=
  "0.0,1.0,C4" ++ String PyStr.newline EmptyString.

End ScoreText.

(** ** Sample data

    A small index, disk and object states on which the definitions above
    are run.  Samples are rationals with exact arithmetic. *)

Module Sample.

#[global] Instance Q_samples : SampleOps Q := {
  s_zero := 0%Q;
  s_add := fun x y => Qred (x + y);
  s_mul := fun x y => Qred (x * y);
  s_div_count := fun x n => Qred (x / inject_Z (Z.of_nat n))
}.

Definition violin_paths : track_paths :=
  [ ("audio_1", ("audio/mozart/violin_1.wav", "0a"));
    ("audio_2", ("audio/mozart/violin_2.wav", "0b"));
    ("notes", ("annotations/mozart/violin.txt", "0c"));
    ("notes_original", ("annotations/mozart/violin_o.txt", "0d")) ].

Definition oboe_paths : track_paths :=
  [ ("audio_1", ("audio/mozart/oboe_1.wav", "1a"));
    ("notes", ("annotations/mozart/oboe.txt", "1c"));
    ("notes_original", ("annotations/mozart/oboe_o.txt", "1d")) ].

(** A piece with two sub-tracks and four score entries. *)
Definition mozart : multitrack_entry :=
  {| mt_tracks := [ ("mozart-violin", violin_paths);
                    ("mozart-oboe", oboe_paths) ];
     mt_files := [ ("score-violin", ("annotations/mozart/violin.txt", "0c"));
                   ("score-oboe", ("annotations/mozart/oboe.txt", "1c"));
                   ("score-flute", ("annotations/mozart/flute.txt", "2c"));
                   ("score-horn", ("annotations/mozart/horn.txt", "3c")) ] |}.

(** A piece without sub-tracks. *)
Definition etude : multitrack_entry :=
  {| mt_tracks := [];
     mt_files := [ ("score-violin", ("annotations/etude/violin.txt", "4c"));
                   ("score-oboe", ("annotations/etude/oboe.txt", "5c"));
                   ("score-trumpet", ("annotations/etude/trumpet.txt", "6c")) ] |}.

(** A piece without sub-tracks in which two keys contain ['score-'] and
    differ only by a second ['score-']. *)
Definition medley : multitrack_entry :=
  {| mt_tracks := [];
     mt_files := [ ("score-violin", ("annotations/medley/violin.txt", "7c"));
                   ("score-score-violin",
                    ("annotations/medley/violin_b.txt", "8c")) ] |}.

Definition index : dataset_index :=
  {| ix_tracks := [ ("mozart-violin", violin_paths);
                    ("mozart-oboe", oboe_paths) ];
     ix_multitracks := [ ("mozart", mozart); ("etude", etude);
                         ("medley", medley) ] |}.

Definition data_home : string := "/data".

Definition violin : Track.t :=
  {| Track.track_id := "mozart-violin";
     Track._data_home := data_home;
     Track._track_paths := violin_paths;
     Track.instrument := "violin";
     Track.piece := "mozart";
     Track.audio_paths := [ "/data/audio/mozart/violin_1.wav";
                            "/data/audio/mozart/violin_2.wav" ];
     Track.n_voices := 2;
     Track.notes_path := "/data/annotations/mozart/violin.txt";
     Track.notes_original_path := "/data/annotations/mozart/violin_o.txt" |}.

Definition oboe : Track.t :=
  {| Track.track_id := "mozart-oboe";
     Track._data_home := data_home;
     Track._track_paths := oboe_paths;
     Track.instrument := "oboe";
     Track.piece := "mozart";
     Track.audio_paths := [ "/data/audio/mozart/oboe_1.wav" ];
     Track.n_voices := 1;
     Track.notes_path := "/data/annotations/mozart/oboe.txt";
     Track.notes_original_path := "/data/annotations/mozart/oboe_o.txt" |}.

(** The state of the MultiTrack object of the piece [mozart]: the fields
    as the constructor's assignments give them. *)
Definition mozart_mtrack : MultiTrack.t :=
  {| MultiTrack.mtrack_id := "mozart";
     MultiTrack._data_home := data_home;
     MultiTrack.mtrack_ids := [ "mozart-oboe"; "mozart-violin" ];
     MultiTrack.tracks := [ ("mozart-oboe", oboe); ("mozart-violin", violin) ];
     MultiTrack.track_audio_property := "audio";
     MultiTrack.instruments := [ "flute"; "horn"; "oboe"; "violin" ];
     MultiTrack.sections := [ "brass"; "strings"; "woodwinds" ] |}.

(** Audio files: two violin voices of two samples, an oboe voice of
    three. *)
Definition audio_files : audio_disk Q :=
  fun path =>
    if String.eqb path "/data/audio/mozart/violin_1.wav"
    then Some ([10; 20], 44100%N)
    else if String.eqb path "/data/audio/mozart/violin_2.wav"
    then Some ([1; 2], 44100%N)
    else if String.eqb path "/data/audio/mozart/oboe_1.wav"
    then Some ([4; 5; 6], 44100%N)
    else None.

(** The same files with an oboe voice of two samples. *)
Definition level_audio_files : audio_disk Q :=
  fun path =>
    if String.eqb path "/data/audio/mozart/oboe_1.wav"
    then Some ([4; 5], 44100%N)
    else audio_files path.

(** Score files: two rows for the violin, three for the oboe, a single
    row for the flute, and no file for the horn. *)
Definition score_files : text_disk :=
  fun path =>
    if String.eqb path "/data/annotations/mozart/violin.txt"
    then Some ScoreText.two_rows
    else if String.eqb path "/data/annotations/mozart/oboe.txt"
    then Some ScoreText.three_rows
    else if String.eqb path "/data/annotations/mozart/flute.txt"
    then Some ScoreText.one_row
    else None.

End Sample.

(** ** Further sample data: entries at the edges of the index shape *)

Module Edge.

(** A sub-track without audio keys, one whose id has no ['-'], and one
    without the key ['notes']. *)
Definition index : dataset_index :=
  {| ix_tracks :=
       [ ("mozart-triangle",
          [ ("notes", ("annotations/mozart/triangle.txt", "a1"));
            ("notes_original", ("annotations/mozart/triangle_o.txt", "a2")) ]);
         ("celesta",
          [ ("audio_1", ("audio/celesta.wav", "b0"));
            ("notes", ("annotations/celesta.txt", "b1"));
            ("notes_original", ("annotations/celesta_o.txt", "b2")) ]);
         ("mozart-harp",
          [ ("audio_1", ("audio/mozart/harp.wav", "c0"));
            ("notes_original", ("annotations/mozart/harp_o.txt", "c2")) ]) ];
     ix_multitracks :=
       [ ("sonata",
          {| mt_tracks := [];
             mt_files :=
               [ ("score-violin", ("annotations/sonata/vl.txt", "d1")) ] |}) ]
  |}.

(** The MultiTrack of the piece [sonata], as its constructor builds it,
    and a disk with its one score file. *)
Definition sonata_mtrack : MultiTrack.t :=
  {| MultiTrack.mtrack_id := "sonata";
     MultiTrack._data_home := "/data";
     MultiTrack.mtrack_ids := [];
     MultiTrack.tracks := [];
     MultiTrack.track_audio_property := "audio";
     MultiTrack.instruments := [ "violin" ];
     MultiTrack.sections := [ "strings" ] |}.

Definition sonata_scores : text_disk :=
  fun path =>
    if String.eqb path "/data/annotations/sonata/vl.txt"
    then Some ScoreText.two_rows
    else None.

(** The sub-track without audio keys, as its constructor builds it. *)
Definition triangle : Track.t :=
  {| Track.track_id := "mozart-triangle";
     Track._data_home := "/data";
     Track._track_paths :=
       [ ("notes", ("annotations/mozart/triangle.txt", "a1"));
         ("notes_original", ("annotations/mozart/triangle_o.txt", "a2")) ];
     Track.instrument := "triangle";
     Track.piece := "mozart";
     Track.audio_paths := [];
     Track.n_voices := 0;
     Track.notes_path := "/data/annotations/mozart/triangle.txt";
     Track.notes_original_path := "/data/annotations/mozart/triangle_o.txt" |}.

(** A disk without audio files. *)
Definition no_audio : audio_disk Q := fun _ => None.

End Edge.

(** ** Vocabulary of the properties *)

(** Sorted in the order of [sorted]: each element is at most the next. *)
Definition alphabetical (l : list string) : Prop :=
  Sorted (fun a b => String.leb a b = true) l.

(** The names that the score keys of a piece give before they are
    sorted: one per key that contains ['score-']. *)
Definition score_names (entry : multitrack_entry) : list string :=
  map (PyStr.replace "score-" EmptyString)
      (filter (PyStr.contains "score-") (keys (mt_files entry))).

(** The shape of the score keys in the index: ['score-<instrument>'],
    the instrument name itself free of ['score-']. *)
Definition score_key (key : string) : Prop :=
  exists name, key = "score-" ++ name /\ PyStr.contains "score-" name = false.

(** [section] is the image of [instrument] under the section map. *)
Definition section_of (instrument section : string) : Prop :=
  assoc instrument DATASET_SECTIONS = Some section.

(** The rows of a score file, as Events. *)
Definition rows (f : MultiTrack.score_file) : list (Q * Q * string) :=
  combine (combine (MultiTrack.sf_start f) (MultiTrack.sf_end f))
          (MultiTrack.sf_notes f).

(** A file in which every row has its note: the three columns have the
    same length. *)
Definition aligned (f : MultiTrack.score_file) : Prop :=
  length (MultiTrack.sf_end f) = length (MultiTrack.sf_start f) /\
  length (MultiTrack.sf_notes f) = length (MultiTrack.sf_start f).

(** The sample-for-sample sum of the voices of a track: sample [j] of
    the result adds sample [j] of every further voice, in voice order, to
    sample [j] of the first voice. *)
Definition voice_sum {sample : Type} `{SampleOps sample}
    (first : list sample) (others : list (list sample)) : list sample :=
  map (fun j =>
         fold_left s_add (map (fun b => nth j b s_zero) others)
                   (nth j first s_zero))
      (seq 0 (length first)).

(** The character [c] does not occur in [s]. *)
Definition free_of (c : ascii) (s : string) : Prop :=
  ~ In c (list_ascii_of_string s).

(** A name without the separator of the pattern. *)
Definition plain_name (name : string) : Prop := free_of "|"%char name.

(** A letter or a digit of ASCII: a character that stands for itself in
    a regular expression. *)
Definition is_alnum (a : ascii) : bool :=
  let n := nat_of_ascii a in
  ((48 <=? n)%nat && (n <=? 57)%nat)
  || ((65 <=? n)%nat && (n <=? 90)%nat)
  || ((97 <=? n)%nat && (n <=? 122)%nat).

(** A word: letters and digits only. *)
Definition word (s : string) : Prop :=
  Forall (fun c => is_alnum c = true) (list_ascii_of_string s).

(** ASCII text. *)
Definition ascii_text (s : string) : Prop :=
  Forall (fun c => (nat_of_ascii c <? 128)%nat = true)
         (list_ascii_of_string s).

(** [name] occurs in [subject], the case of ASCII letters ignored. *)
Definition occurs_in (name subject : string) : Prop :=
  PyStr.contains (PyStr.lower name) (PyStr.lower subject) = true.

(** * Properties *)

(** ** Lists, dicts and sorting *)

Lemma mem_In (x : string) (l : list string) :
  PyStr.mem x l = true <-> In x l.
Proof.
  induction l as [|y l IH]; simpl.
  - split; [discriminate | tauto].
  - rewrite orb_true_iff, IH, String.eqb_eq. tauto.
Qed.

Lemma mem_not_In (x : string) (l : list string) :
  PyStr.mem x l = false <-> ~ In x l.
Proof.
  rewrite <- mem_In. destruct (PyStr.mem x l); split; congruence.
Qed.

Lemma assoc_None_keys {V : Type} (k : string) (d : list (string * V)) :
  assoc k d = None <-> ~ In k (keys d).
Proof.
  induction d as [|[k' v] d IH]; simpl.
  - tauto.
  - destruct (String.eqb_spec k' k) as [->|Hne].
    + split; [discriminate | tauto].
    + rewrite IH. tauto.
Qed.

Lemma insert_sorted_perm (x : string) (l : list string) :
  Permutation (x :: l) (PyStr.insert_sorted x l).
Proof.
  induction l as [|y l IH]; simpl.
  - apply Permutation_refl.
  - destruct (String.leb x y).
    + apply Permutation_refl.
    + eapply perm_trans; [apply perm_swap | apply perm_skip, IH].
Qed.

Lemma sorted_perm (l : list string) : Permutation l (PyStr.sorted l).
Proof.
  induction l as [|x l IH]; simpl.
  - apply perm_nil.
  - eapply perm_trans; [apply perm_skip, IH | apply insert_sorted_perm].
Qed.

Lemma insert_sorted_alphabetical (x : string) (l : list string) :
  alphabetical l -> alphabetical (PyStr.insert_sorted x l).
Proof.
  unfold alphabetical. induction l as [|y l IH]; simpl; intros Hs.
  - repeat constructor.
  - destruct (String.leb x y) eqn:Hxy.
    + constructor; [assumption | constructor; assumption].
    + inversion Hs as [|? ? Hl Hhd]; subst.
      constructor; [apply IH; assumption |].
      assert (Hyx : String.leb y x = true)
        by (destruct (String.leb_total x y); congruence).
      destruct l as [|z l]; simpl.
      * constructor. exact Hyx.
      * destruct (String.leb x z); constructor;
          [exact Hyx | inversion Hhd; assumption].
Qed.

Lemma sorted_alphabetical (l : list string) : alphabetical (PyStr.sorted l).
Proof.
  induction l as [|x l IH]; simpl.
  - constructor.
  - apply insert_sorted_alphabetical, IH.
Qed.

Lemma sorted_In (x : string) (l : list string) :
  In x (PyStr.sorted l) <-> In x l.
Proof.
  split; apply Permutation_in;
    [apply Permutation_sym |]; apply sorted_perm.
Qed.

Lemma sorted_NoDup (l : list string) : NoDup l -> NoDup (PyStr.sorted l).
Proof. apply Permutation_NoDup, sorted_perm. Qed.

Lemma sorted_length (l : list string) : length (PyStr.sorted l) = length l.
Proof. symmetry. apply Permutation_length, sorted_perm. Qed.

Lemma dedup_In (x : string) (l : list string) :
  In x (PyStr.dedup l) <-> In x l.
Proof.
  induction l as [|y l IH]; simpl; [tauto |].
  destruct (PyStr.mem y l) eqn:Hm; simpl; rewrite IH.
  - apply mem_In in Hm. split; [tauto | intros [->|]; tauto].
  - tauto.
Qed.

Lemma dedup_NoDup (l : list string) : NoDup (PyStr.dedup l).
Proof.
  induction l as [|y l IH]; simpl; [constructor |].
  destruct (PyStr.mem y l) eqn:Hm; [exact IH |].
  constructor; [| exact IH].
  rewrite dedup_In. apply mem_not_In, Hm.
Qed.

(** ** The error monad *)

Lemma mapM_app_raise {A B : Type} (f : A -> result B) (e : exn)
    (pre : list A) (x : A) (post : list A) :
  Forall (fun y => is_ok (f y) = true) pre ->
  f x = Raise e ->
  mapM f (pre ++ x :: post)%list = Raise e.
Proof.
  intros Hpre Hx. induction Hpre as [|y pre Hy _ IH]; simpl.
  - rewrite Hx. reflexivity.
  - destruct (f y); [| discriminate]. simpl. rewrite IH. reflexivity.
Qed.

Lemma mapM_Ok_length {A B : Type} (f : A -> result B) (xs : list A)
    (ys : list B) :
  mapM f xs = Ok ys -> length ys = length xs.
Proof.
  revert ys. induction xs as [|x xs IH]; simpl; intros ys Hm.
  - injection Hm as <-. reflexivity.
  - destruct (f x); [| discriminate]. simpl in Hm.
    destruct (mapM f xs); [| discriminate]. simpl in Hm.
    injection Hm as <-. simpl. f_equal. apply IH. reflexivity.
Qed.

(** ** The regular expression of an empty list of names *)

Lemma names_match_nil (subject : string) :
  MultiTrack.names_match [] subject = true.
Proof.
  unfold MultiTrack.names_match, Re.search_ignorecase. simpl.
  destruct (PyStr.lower subject); reflexivity.
Qed.

Lemma filter_all {A : Type} (p : A -> bool) (l : list A) :
  (forall x, p x = true) -> filter p l = l.
Proof.
  intros Hp. induction l as [|x l IH]; simpl; [reflexivity |].
  rewrite Hp, IH. reflexivity.
Qed.

(** ** Construction *)

Lemma Track_call_three (a b c : Track.arg) :
  Track.call [a; b; c] = Raise TypeError.
Proof. destruct a, b, c; reflexivity. Qed.

Lemma build_tracks (mtrack_id data_home : string) (ids : list string) :
  mapM (fun k =>
          tr <- Track.call [Track.AStr mtrack_id; Track.AStr k;
                            Track.AStr data_home] ;;
          Ok (k, tr)) ids
  = match ids with [] => Ok [] | _ => Raise TypeError end.
Proof. destruct ids; reflexivity. Qed.

Lemma init_unfold (index : dataset_index) (mtrack_id data_home : string)
    (entry : multitrack_entry) :
  assoc mtrack_id (ix_multitracks index) = Some entry ->
  MultiTrack.init index mtrack_id data_home
  = match sorted_keys (mt_tracks entry) with
    | [] =>
        Ok {| MultiTrack.mtrack_id := mtrack_id;
              MultiTrack._data_home := data_home;
              MultiTrack.mtrack_ids := [];
              MultiTrack.tracks := [];
              MultiTrack.track_audio_property := "audio";
              MultiTrack.instruments := MultiTrack.derive_instruments entry;
              MultiTrack.sections :=
                MultiTrack.derive_sections
                  (MultiTrack.derive_instruments entry) |}
    | _ => Raise TypeError
    end.
Proof.
  intros Hentry. unfold MultiTrack.init. rewrite Hentry, build_tracks.
  destruct (sorted_keys (mt_tracks entry)); reflexivity.
Qed.

(** Every piece that has a sub-track fails to construct: the call
    [Track(self.mtrack_id, k, self._data_home)] leaves two of the five
    parameters of [Track.__init__] without a value. *)
Lemma init_with_subtracks (index : dataset_index)
    (mtrack_id data_home : string) (entry : multitrack_entry) :
  assoc mtrack_id (ix_multitracks index) = Some entry ->
  mt_tracks entry <> [] ->
  MultiTrack.init index mtrack_id data_home = Raise TypeError.
Proof.
  intros Hentry Hne. rewrite (init_unfold _ _ _ _ Hentry).
  destruct (sorted_keys (mt_tracks entry)) eqn:Hk; [| reflexivity].
  exfalso. apply Hne.
  apply (f_equal (@length string)) in Hk.
  unfold sorted_keys, keys in Hk.
  rewrite sorted_length, length_map in Hk.
  destruct (mt_tracks entry); [reflexivity | discriminate].
Qed.

Lemma init_Ok_fields (index : dataset_index) (mtrack_id data_home : string)
    (self : MultiTrack.t) :
  MultiTrack.init index mtrack_id data_home = Ok self ->
  exists entry,
    assoc mtrack_id (ix_multitracks index) = Some entry /\
    MultiTrack.instruments self = MultiTrack.derive_instruments entry /\
    MultiTrack.sections self
    = MultiTrack.derive_sections (MultiTrack.instruments self).
Proof.
  intros Hinit.
  destruct (assoc mtrack_id (ix_multitracks index)) as [entry|] eqn:Hentry.
  - exists entry. rewrite (init_unfold _ _ _ _ Hentry) in Hinit.
    destruct (sorted_keys (mt_tracks entry)); [| discriminate].
    injection Hinit as <-. simpl. auto.
  - unfold MultiTrack.init in Hinit. rewrite Hentry in Hinit. discriminate.
Qed.

(** The constructor of [Track], called with its five arguments, builds
    the sample track from the sample index. *)
Example Track_init_violin :
  Track.init "mozart-violin" Sample.data_home "phenicx_anechoic"
             Sample.index tt
  = Ok Sample.violin.
Proof. reflexivity. Qed.

Lemma Track_init_n_voices (track_id data_home dataset_name : string)
    (index : dataset_index) (self : Track.t) :
  Track.init track_id data_home dataset_name index tt = Ok self ->
  Track.n_voices self = length (Track.audio_paths self).
Proof.
  unfold Track.init. intros Hinit.
  destruct (Track.core_init track_id index); [| discriminate].
  simpl in Hinit.
  destruct (Track.item (PyStr.split "-" track_id) 1); [| discriminate].
  simpl in Hinit.
  destruct (Track.item (PyStr.split "-" track_id) 0); [| discriminate].
  simpl in Hinit.
  destruct (Track.path_at a "notes"); [| discriminate]. simpl in Hinit.
  destruct (Track.path_at a "notes_original"); [| discriminate].
  simpl in Hinit. injection Hinit as <-. reflexivity.
Qed.

(** ** Claims on construction *)

(** C8.  A piece id that is absent from the index makes the construction
    of a MultiTrack fail with ValueError, the invalid-id error; for a piece
    id that is in the index the construction does not raise that error. *)
Theorem init_invalid_id (index : dataset_index)
    (mtrack_id data_home : string) :
  (~ In mtrack_id (keys (ix_multitracks index)) ->
   MultiTrack.init index mtrack_id data_home = Raise ValueError) /\
  (In mtrack_id (keys (ix_multitracks index)) ->
   MultiTrack.init index mtrack_id data_home <> Raise ValueError).
Proof.
  split.
  - intros Habsent. apply assoc_None_keys in Habsent.
    unfold MultiTrack.init. rewrite Habsent. reflexivity.
  - intros Hpresent.
    destruct (assoc mtrack_id (ix_multitracks index)) as [entry|] eqn:Hentry.
    + rewrite (init_unfold _ _ _ _ Hentry).
      destruct (sorted_keys (mt_tracks entry)); discriminate.
    + apply assoc_None_keys in Hentry. contradiction.
Qed.

Lemma init_invalid_id_witness :
  MultiTrack.init Sample.index "haydn" Sample.data_home = Raise ValueError /\
  MultiTrack.init Sample.index "etude" Sample.data_home <> Raise ValueError.
Proof.
  split.
  - apply (proj1 (init_invalid_id Sample.index "haydn" Sample.data_home)).
    simpl. intros [H|[H|[H|[]]]]; discriminate.
  - apply (proj2 (init_invalid_id Sample.index "etude" Sample.data_home)).
    simpl. auto.
Defined.

(** C5.  The construction of the MultiTrack of the sample piece [mozart],
    which is in the index and has two sub-tracks, does not build its
    Tracks: it raises TypeError. *)
Theorem init_mozart_TypeError :
  In "mozart" (keys (ix_multitracks Sample.index)) /\
  keys (mt_tracks Sample.mozart) = ["mozart-violin"; "mozart-oboe"] /\
  MultiTrack.init Sample.index "mozart" Sample.data_home = Raise TypeError.
Proof. repeat split. simpl. auto. Qed.

(** C10.  With the empty list of instruments, [get_trackids] returns all
    the sub-track ids of the piece. *)
Theorem get_trackids_empty (self : MultiTrack.t) :
  MultiTrack.get_trackids self (MultiTrack.Many [])
  = Ok (MultiTrack.mtrack_ids self).
Proof.
  unfold MultiTrack.get_trackids. simpl.
  rewrite (filter_all _ _ names_match_nil). reflexivity.
Qed.

(** ** Claims on unknown instruments *)

Lemma all_known_false (self : MultiTrack.t) (l : list string) (x : string) :
  In x l -> ~ In x (MultiTrack.instruments self) ->
  MultiTrack.all_known self l = false.
Proof.
  intros Hx Hunknown. unfold MultiTrack.all_known.
  destruct (forallb _ l) eqn:Hall; [| reflexivity].
  rewrite forallb_forall in Hall. apply Hall in Hx.
  apply mem_In in Hx. contradiction.
Qed.

(** C3.  A request that names an instrument outside the instrument set of
    the piece makes [get_trackids] and [get_score_mix_instruments] fail
    with AssertionError; neither returns a value. *)
Theorem unknown_instrument (index : dataset_index) (disk : text_disk)
    (self : MultiTrack.t) (arg : MultiTrack.names) (x : string) :
  In x (MultiTrack.as_list arg) ->
  ~ In x (MultiTrack.instruments self) ->
  MultiTrack.get_trackids self arg = Raise AssertionError /\
  MultiTrack.get_score_mix_instruments index disk self arg
  = Raise AssertionError.
Proof.
  intros Hx Hunknown.
  pose proof (all_known_false self _ x Hx Hunknown) as Hfalse.
  unfold MultiTrack.get_trackids, MultiTrack.get_score_mix_instruments.
  rewrite Hfalse. split; reflexivity.
Qed.

Lemma unknown_instrument_witness :
  MultiTrack.get_trackids Sample.mozart_mtrack (MultiTrack.One "tuba")
  = Raise AssertionError /\
  MultiTrack.get_score_mix_instruments Sample.index Sample.score_files
    Sample.mozart_mtrack (MultiTrack.One "tuba")
  = Raise AssertionError.
Proof.
  apply (unknown_instrument Sample.index Sample.score_files
           Sample.mozart_mtrack (MultiTrack.One "tuba") "tuba").
  - simpl. auto.
  - simpl. intros [H|[H|[H|[H|[]]]]]; discriminate.
Defined.

(** ** Claims on the derived instrument and section lists *)

Lemma section_map_functional (instrument section : string) :
  In (instrument, section) DATASET_SECTIONS ->
  section_of instrument section.
Proof.
  unfold section_of. simpl.
  intros H; repeat (destruct H as [H|H]; [injection H as <- <-; reflexivity |]).
  contradiction.
Qed.

Lemma derive_sections_image (instruments : list string) (section : string) :
  In section (MultiTrack.derive_sections instruments) ->
  exists instrument,
    In instrument instruments /\ section_of instrument section.
Proof.
  unfold MultiTrack.derive_sections.
  rewrite sorted_In, dedup_In, in_map_iff.
  intros [[i s] [Hs Hin]]. simpl in Hs. subst s.
  apply filter_In in Hin. destruct Hin as [Hin Hmem]. simpl in Hmem.
  exists i. split; [apply mem_In, Hmem | apply section_map_functional, Hin].
Qed.

(** The lists that the constructor's assignments compute, for any entry. *)
Lemma derive_lists_sorted (entry : multitrack_entry) :
  alphabetical (MultiTrack.derive_instruments entry) /\
  (NoDup (score_names entry) -> NoDup (MultiTrack.derive_instruments entry)) /\
  alphabetical
    (MultiTrack.derive_sections (MultiTrack.derive_instruments entry)) /\
  NoDup (MultiTrack.derive_sections (MultiTrack.derive_instruments entry)).
Proof.
  unfold MultiTrack.derive_instruments. fold (score_names entry).
  repeat split.
  - apply sorted_alphabetical.
  - apply sorted_NoDup.
  - apply sorted_alphabetical.
  - apply sorted_NoDup, dedup_NoDup.
Qed.

Lemma replace_from_absent (old new s : string) :
  PyStr.contains old s = false -> PyStr.replace_from old new 0 s = s.
Proof.
  induction s as [|c s IH]; [reflexivity |].
  intros Habsent.
  change (PyStr.contains old (String c s))
    with (prefix old (String c s) || PyStr.contains old s) in Habsent.
  apply orb_false_iff in Habsent. destruct Habsent as [Hprefix Hrest].
  change (PyStr.replace_from old new 0 (String c s))
    with (if prefix old (String c s)
          then new ++ PyStr.replace_from old new (String.length old - 1) s
          else String c (PyStr.replace_from old new 0 s)).
  rewrite Hprefix, (IH Hrest). reflexivity.
Qed.

Lemma replace_score_key (name : string) :
  PyStr.contains "score-" name = false ->
  PyStr.replace "score-" EmptyString ("score-" ++ name) = name.
Proof.
  intros Habsent. unfold PyStr.replace. simpl.
  destruct name as [|c name]; [reflexivity |].
  apply (replace_from_absent "score-" EmptyString _ Habsent).
Qed.

(** With keys of the shape ['score-<instrument>'], the names are pairwise
    distinct, as the keys of a dict are. *)
Lemma score_names_NoDup (entry : multitrack_entry) :
  NoDup (keys (mt_files entry)) ->
  (forall key, In key (keys (mt_files entry)) ->
     PyStr.contains "score-" key = true -> score_key key) ->
  NoDup (score_names entry).
Proof.
  intros Hkeys Hshape. unfold score_names.
  apply NoDup_map_NoDup_ForallPairs; [| apply NoDup_filter, Hkeys].
  intros k1 k2 H1 H2 Heq.
  apply filter_In in H1. apply filter_In in H2.
  destruct (Hshape k1 (proj1 H1) (proj2 H1)) as [n1 [-> Hn1]].
  destruct (Hshape k2 (proj1 H2) (proj2 H2)) as [n2 [-> Hn2]].
  rewrite (replace_score_key _ Hn1), (replace_score_key _ Hn2) in Heq.
  congruence.
Qed.

(** What holds of the derived lists for every piece whose MultiTrack is
    constructed: [instruments] is sorted, and free of duplicates when
    the names that its score keys give are pairwise distinct; [sections]
    is sorted and free of duplicates, and each of its elements is the
    image under the section map of an element of [instruments]. *)
Lemma derived_lists_sorted (index : dataset_index)
    (mtrack_id data_home : string) (entry : multitrack_entry)
    (self : MultiTrack.t) :
  assoc mtrack_id (ix_multitracks index) = Some entry ->
  MultiTrack.init index mtrack_id data_home = Ok self ->
  alphabetical (MultiTrack.instruments self) /\
  (NoDup (score_names entry) -> NoDup (MultiTrack.instruments self)) /\
  alphabetical (MultiTrack.sections self) /\
  NoDup (MultiTrack.sections self) /\
  (forall section, In section (MultiTrack.sections self) ->
     exists instrument,
       In instrument (MultiTrack.instruments self) /\
       section_of instrument section).
Proof.
  intros Hentry Hinit.
  destruct (init_Ok_fields _ _ _ _ Hinit) as [entry' [Hentry' [Hins Hsec]]].
  rewrite Hentry in Hentry'. injection Hentry' as <-.
  rewrite Hsec, Hins. unfold MultiTrack.derive_instruments.
  fold (score_names entry).
  repeat split.
  - apply sorted_alphabetical.
  - apply sorted_NoDup.
  - apply sorted_alphabetical.
  - apply sorted_NoDup, dedup_NoDup.
  - apply derive_sections_image.
Qed.

(** C7.  The sample piece [medley] is in the index, with the score keys
    ['score-violin'] and ['score-score-violin']; its MultiTrack is
    constructed, and [instruments] is not free of duplicates: [replace]
    removes every ['score-'], not the leading one alone, so both keys
    give the name ['violin']. *)
Theorem instruments_with_duplicate :
  In "medley" (keys (ix_multitracks Sample.index)) /\
  exists self,
    MultiTrack.init Sample.index "medley" Sample.data_home = Ok self /\
    ~ NoDup (MultiTrack.instruments self).
Proof.
  split; [simpl; auto |].
  eexists. split; [reflexivity |]. simpl.
  intros Hnd. inversion Hnd as [|? ? Hnotin _]; subst.
  apply Hnotin. left. reflexivity.
Qed.

(** ** Claims on audio *)

Section AudioProperties.

Context {sample : Type} `{SampleOps sample}.

Lemma zip_with_length (a b : list sample) :
  length b = length a -> length (Np.zip_with s_add a b) = length a.
Proof.
  revert b. induction a as [|x a IH]; intros [|y b] Hlen; simpl in *;
    try reflexivity; try discriminate.
  f_equal. apply IH. lia.
Qed.

Lemma zip_with_nth (a b : list sample) (j : nat) :
  length b = length a -> (j < length a)%nat ->
  nth j (Np.zip_with s_add a b) s_zero
  = s_add (nth j a s_zero) (nth j b s_zero).
Proof.
  revert b j. induction a as [|x a IH]; intros [|y b] j Hlen Hj; simpl in *;
    try lia.
  destruct j as [|j]; [reflexivity |]. apply IH; lia.
Qed.

Lemma iadd_same_length (a b : list sample) :
  length b = length a -> Np.iadd a b = Ok (Np.zip_with s_add a b).
Proof.
  intros Hlen. unfold Np.iadd. rewrite Hlen, Nat.eqb_refl. reflexivity.
Qed.

Lemma map_nth_seq (a : list sample) :
  map (fun j => nth j a s_zero) (seq 0 (length a)) = a.
Proof.
  induction a as [|x a IH]; simpl; [reflexivity |].
  f_equal. rewrite <- seq_shift, map_map. exact IH.
Qed.

(** Adding the voices one array at a time gives the sample-for-sample
    sum. *)
Lemma fold_zip_with_voice_sum (others : list (list sample))
    (first : list sample) :
  Forall (fun b => length b = length first) others ->
  fold_left (Np.zip_with s_add) others first = voice_sum first others.
Proof.
  revert first. induction others as [|b others IH]; intros first Hall.
  - unfold voice_sum. simpl. symmetry. apply map_nth_seq.
  - inversion Hall as [|? ? Hb Hothers]; subst. simpl.
    rewrite IH.
    + unfold voice_sum. rewrite (zip_with_length _ _ Hb).
      apply map_ext_in. intros j Hj. apply in_seq in Hj. simpl.
      rewrite (zip_with_nth _ _ _ Hb); [reflexivity | lia].
    + rewrite (zip_with_length _ _ Hb). exact Hothers.
Qed.

(** The loop over the further voices, started at index [k]. *)
Lemma add_voices_from (load : string -> result (list sample * N))
    (self : Track.t) (paths : list string) (buffers : list (list sample))
    (rate : N) :
  Forall2 (fun p b => load p = Ok (b, rate)) paths buffers ->
  forall (k : nat) (audio_mix : list sample),
    (forall j, (j < length paths)%nat ->
       nth_error (Track.audio_paths self) (k + j) = nth_error paths j) ->
    Forall (fun b => length b = length audio_mix) buffers ->
    Track.add_voices load self audio_mix (seq k (length paths))
    = Ok (fold_left (Np.zip_with s_add) buffers audio_mix).
Proof.
  induction 1 as [|p b paths buffers Hp _ IH]; intros k audio_mix Hnth Hlen.
  - reflexivity.
  - inversion Hlen as [|? ? Hb Hrest]; subst. simpl.
    unfold Track.add_voice, Track.item.
    specialize (Hnth O) as Hhead. simpl in Hhead.
    rewrite Nat.add_0_r in Hhead. rewrite Hhead by lia. simpl.
    rewrite Hp. simpl.
    rewrite (iadd_same_length _ _ Hb). simpl.
    apply IH.
    + intros j Hj. specialize (Hnth (S j)). simpl in Hnth.
      rewrite <- Nat.add_succ_comm in Hnth. apply Hnth. lia.
    + rewrite (zip_with_length _ _ Hb). exact Hrest.
Qed.

(** The loop of [audio] by itself, for a loader that returns a buffer
    for every voice, all of one length and one sample rate: the result
    is the sample-for-sample sum of the buffers with the sample rate of
    the first voice. *)
Lemma audio_sums_voices (load : string -> result (list sample * N))
    (self : Track.t) (path0 : string) (paths : list string)
    (first : list sample) (others : list (list sample)) (rate : N) :
  Track.audio_paths self = path0 :: paths ->
  Track.n_voices self = length (Track.audio_paths self) ->
  load path0 = Ok (first, rate) ->
  Forall2 (fun p b => load p = Ok (b, rate)) paths others ->
  Forall (fun b => length b = length first) others ->
  Track.audio load self = Ok (voice_sum first others, rate).
Proof.
  intros Hpaths Hn Hfirst Hothers Hlen.
  unfold Track.audio, Track.item. rewrite Hn, Hpaths. simpl.
  rewrite Hfirst. simpl. rewrite Nat.sub_0_r.
  rewrite (add_voices_from load self paths others rate Hothers).
  - simpl. rewrite (fold_zip_with_voice_sum _ _ Hlen). reflexivity.
  - intros j _. rewrite Hpaths. reflexivity.
  - exact Hlen.
Qed.






End AudioProperties.

(** C4.  On the sample track of the violin both voice files exist and
    decode to buffers of two samples at one rate; [audio] does not
    return their sum: [load_audio] raises NameError at the first voice,
    its body reading the name [audio_path] that nothing binds. *)
Theorem audio_existing_voices_NameError :
  Track.audio_paths Sample.violin
  = ["/data/audio/mozart/violin_1.wav"; "/data/audio/mozart/violin_2.wav"] /\
  Sample.audio_files "/data/audio/mozart/violin_1.wav"
  = Some ([10; 20], 44100%N) /\
  Sample.audio_files "/data/audio/mozart/violin_2.wav"
  = Some ([1; 2], 44100%N) /\
  Track.audio (load_audio Sample.audio_files) Sample.violin
  = Raise NameError.
Proof. repeat split. Qed.

(** ** Claims on scores *)

Lemma all_known_true (self : MultiTrack.t) (l : list string) :
  Forall (fun x => In x (MultiTrack.instruments self)) l ->
  MultiTrack.all_known self l = true.
Proof.
  intros Hall. unfold MultiTrack.all_known. apply forallb_forall.
  intros x Hx. apply mem_In. rewrite Forall_forall in Hall. auto.
Qed.

(** C6, as the code has it.  When the request for the instrument [X] of
    the piece resolves to one score file, and that file holds the two
    rows [0.0,1.0,C4] and [1.0,2.0,D4], with or without a final line
    terminator, [get_score_mix_instruments([X])] returns these two
    Events in this order. *)
Theorem two_row_score_round_trip (index : dataset_index) (disk : text_disk)
    (self : MultiTrack.t) (entry : multitrack_entry)
    (X path content : string) :
  In X (MultiTrack.instruments self) ->
  assoc (MultiTrack.mtrack_id self) (ix_multitracks index) = Some entry ->
  MultiTrack.score_paths entry [X] = [path] ->
  disk (OsPath.join (MultiTrack._data_home self) path) = Some content ->
  content = ScoreText.two_rows \/ content = ScoreText.two_rows_open ->
  MultiTrack.get_score_mix_instruments index disk self (MultiTrack.Many [X])
  = Ok {| start_times := [0; 1];
          end_times := [1; 2];
          event := ["C4"; "D4"] |}.
Proof.
  intros HX Hentry Hpaths Hdisk Hcontent.
  unfold MultiTrack.get_score_mix_instruments.
  rewrite all_known_true by (repeat constructor; exact HX).
  rewrite Hentry. simpl MultiTrack.as_list. rewrite Hpaths.
  simpl mapM. unfold MultiTrack.read_score. rewrite Hdisk.
  destruct Hcontent as [-> | ->]; reflexivity.
Qed.

Lemma two_row_score_round_trip_witness :
  MultiTrack.get_score_mix_instruments Sample.index Sample.score_files
    Sample.mozart_mtrack (MultiTrack.Many ["violin"])
  = Ok {| start_times := [0; 1];
          end_times := [1; 2];
          event := ["C4"; "D4"] |}.
Proof.
  apply (two_row_score_round_trip Sample.index Sample.score_files
           Sample.mozart_mtrack Sample.mozart "violin"
           "annotations/mozart/violin.txt" ScoreText.two_rows).
  - simpl. auto.
  - reflexivity.
  - reflexivity.
  - reflexivity.
  - left. reflexivity.
Defined.

Lemma Track_init_no_IOError (track_id data_home dataset_name : string)
    (index : dataset_index) :
  Track.init track_id data_home dataset_name index tt <> Raise IOError.
Proof.
  unfold Track.init, Track.core_init.
  destruct (assoc track_id (ix_tracks index)) as [paths|];
    [| discriminate].
  unfold Py.bind at 1.
  destruct (Track.item (PyStr.split "-" track_id) 1) as [|e1] eqn:H1.
  - unfold Py.bind at 1.
    destruct (Track.item (PyStr.split "-" track_id) 0) as [|e0] eqn:H0.
    + unfold Track.path_at.
      destruct (assoc "notes" paths); [| discriminate].
      destruct (assoc "notes_original" paths); discriminate.
    + unfold Track.item in H0.
      destruct (nth_error _ 0); [discriminate |].
      injection H0 as <-. discriminate.
  - unfold Track.item in H1.
    destruct (nth_error _ 1); [discriminate |].
    injection H1 as <-. discriminate.
Qed.

(** C6, as the spec has it, fails on the piece [sonata]: the violin is
    in its instrument set and the file of its score entry holds the two
    rows, but the name does not occur in the path of that file, so the
    request resolves to no file and raises ValueError. *)
Lemma two_row_score_unresolved :
  MultiTrack.init Edge.index "sonata" "/data" = Ok Edge.sonata_mtrack /\
  In "violin" (MultiTrack.instruments Edge.sonata_mtrack) /\
  (exists entry,
     assoc "sonata" (ix_multitracks Edge.index) = Some entry /\
     assoc "score-violin" (mt_files entry)
     = Some ("annotations/sonata/vl.txt", "d1")) /\
  Edge.sonata_scores
    (OsPath.join (MultiTrack._data_home Edge.sonata_mtrack)
                 "annotations/sonata/vl.txt")
  = Some ScoreText.two_rows /\
  MultiTrack.get_score_mix_instruments Edge.index Edge.sonata_scores
    Edge.sonata_mtrack (MultiTrack.Many ["violin"])
  = Raise ValueError /\
  MultiTrack.get_score_mix_instruments Edge.index Edge.sonata_scores
    Edge.sonata_mtrack (MultiTrack.Many ["violin"])
  <> Ok {| start_times := [0; 1];
           end_times := [1; 2];
           event := ["C4"; "D4"] |}.
Proof.
  repeat split.
  - simpl. tauto.
  - eexists. split; reflexivity.
  - discriminate.
Qed.

(** C9.  A missing file is reported where it is read and not before:
    [load_audio] on a path that does not exist raises IOError;
    [get_score_mix_instruments] raises IOError when it reaches a resolved
    score path that does not exist, the files before it having been read;
    and the constructors of MultiTrack and Track raise no IOError,
    whatever is on the disk. *)
Theorem missing_file_IOError {sample : Type} (audio : audio_disk sample)
    (audio_path : string) (index : dataset_index) (disk : text_disk)
    (self : MultiTrack.t) (arg : MultiTrack.names) (entry : multitrack_entry)
    (pre : list string) (path : string) (post : list string)
    (mtrack_id track_id data_home dataset_name : string) :
  (audio audio_path = None -> load_audio audio audio_path = Raise IOError) /\
  (Forall (fun x => In x (MultiTrack.instruments self))
          (MultiTrack.as_list arg) ->
   assoc (MultiTrack.mtrack_id self) (ix_multitracks index) = Some entry ->
   MultiTrack.score_paths entry (MultiTrack.as_list arg)
   = (pre ++ path :: post)%list ->
   Forall (fun p =>
             is_ok (MultiTrack.read_score disk
                      (MultiTrack._data_home self) p) = true) pre ->
   disk (OsPath.join (MultiTrack._data_home self) path) = None ->
   MultiTrack.get_score_mix_instruments index disk self arg
   = Raise IOError) /\
  MultiTrack.init index mtrack_id data_home <> Raise IOError /\
  Track.init track_id data_home dataset_name index tt <> Raise IOError.
Proof.
  split; [| split; [| split]].
  - intros Hmissing. unfold load_audio, coerce_to_bytes_io.
    rewrite Hmissing. reflexivity.
  - intros Hknown Hentry Hpaths Hpre Hmissing.
    unfold MultiTrack.get_score_mix_instruments.
    rewrite (all_known_true _ _ Hknown), Hentry, Hpaths.
    rewrite (mapM_app_raise _ IOError pre path post Hpre); [reflexivity |].
    unfold MultiTrack.read_score. rewrite Hmissing. reflexivity.
  - destruct (assoc mtrack_id (ix_multitracks index)) as [e|] eqn:He.
    + rewrite (init_unfold _ _ _ _ He).
      destruct (sorted_keys (mt_tracks e)); discriminate.
    + unfold MultiTrack.init. rewrite He. discriminate.
  - apply Track_init_no_IOError.
Qed.

Lemma missing_file_IOError_witness :
  load_audio Sample.audio_files "/data/audio/mozart/horn_1.wav"
  = Raise IOError /\
  MultiTrack.get_score_mix_instruments Sample.index Sample.score_files
    Sample.mozart_mtrack (MultiTrack.Many ["oboe"; "horn"]) = Raise IOError.
Proof.
  destruct (missing_file_IOError Sample.audio_files
              "/data/audio/mozart/horn_1.wav" Sample.index Sample.score_files
              Sample.mozart_mtrack (MultiTrack.Many ["oboe"; "horn"])
              Sample.mozart ["annotations/mozart/oboe.txt"]
              "annotations/mozart/horn.txt" [] "mozart" "mozart-violin"
              Sample.data_home "phenicx_anechoic")
    as [Haudio [Hscore _]].
  split.
  - apply Haudio. reflexivity.
  - apply Hscore.
    + constructor; [simpl; tauto |]. constructor; [simpl; tauto |].
      constructor.
    + reflexivity.
    + reflexivity.
    + repeat constructor.
    + reflexivity.
Defined.

(** C2.  On the sample piece the score file of the flute exists and has
    one row; [get_score_mix_instruments(["flute"])] does not return its
    Event: [np.loadtxt] gives a one-dimensional array for a single row,
    and [times[:, 0]] raises IndexError. *)
Theorem single_row_score_IndexError :
  In "flute" (MultiTrack.instruments Sample.mozart_mtrack) /\
  MultiTrack.score_paths Sample.mozart ["flute"]
  = ["annotations/mozart/flute.txt"] /\
  Sample.score_files "/data/annotations/mozart/flute.txt"
  = Some ScoreText.one_row /\
  MultiTrack.get_score_mix_instruments Sample.index Sample.score_files
    Sample.mozart_mtrack (MultiTrack.Many ["flute"]) = Raise IndexError.
Proof. repeat split. simpl. auto. Qed.

(** ** The merge of score files with two or more rows each *)

Lemma Qle_bool_false (x y : Q) : Qle_bool x y = false -> (y <= x)%Q.
Proof.
  intros Hf. apply Qlt_le_weak, Qnot_le_lt. intros Hle.
  apply Qle_bool_iff in Hle. congruence.
Qed.

Lemma insert_index_perm (key : nat -> Q) (i : nat) (l : list nat) :
  Permutation (i :: l) (Np.insert_index key i l).
Proof.
  induction l as [|j l IH]; simpl.
  - apply Permutation_refl.
  - destruct (Qle_bool (key i) (key j)).
    + apply Permutation_refl.
    + eapply perm_trans; [apply perm_swap | apply perm_skip, IH].
Qed.

Lemma insert_index_sorted (key : nat -> Q) (i : nat) (l : list nat) :
  Sorted (fun a b => (key a <= key b)%Q) l ->
  Sorted (fun a b => (key a <= key b)%Q) (Np.insert_index key i l).
Proof.
  induction l as [|j l IH]; simpl; intros Hs.
  - repeat constructor.
  - destruct (Qle_bool (key i) (key j)) eqn:Hij.
    + constructor; [assumption |]. constructor. apply Qle_bool_iff, Hij.
    + inversion Hs as [|? ? Hl Hhd]; subst.
      constructor; [apply IH; assumption |].
      apply Qle_bool_false in Hij.
      destruct l as [|k l]; simpl.
      * constructor. exact Hij.
      * destruct (Qle_bool (key i) (key k)); constructor;
          [exact Hij | inversion Hhd; assumption].
Qed.

Lemma argsort_perm (keys : list Q) :
  Permutation (Np.argsort keys) (seq 0 (length keys)).
Proof.
  unfold Np.argsort. induction (seq 0 (length keys)) as [|i l IH]; simpl.
  - apply perm_nil.
  - eapply perm_trans; [apply Permutation_sym, insert_index_perm |].
    apply perm_skip, IH.
Qed.

Lemma argsort_sorted (keys : list Q) :
  Sorted Qle (map (fun i => nth i keys 0%Q) (Np.argsort keys)).
Proof.
  assert (Hs : Sorted (fun a b => (nth a keys 0 <= nth b keys 0)%Q)
                      (Np.argsort keys)).
  { unfold Np.argsort. induction (seq 0 (length keys)) as [|i l IH]; simpl.
    - constructor.
    - apply insert_index_sorted, IH. }
  induction Hs as [|i l _ IH Hhd]; simpl; constructor.
  - exact IH.
  - destruct Hhd; simpl; constructor. assumption.
Qed.

Lemma argsort_in_range (keys : list Q) :
  Forall (fun i => (i < length keys)%nat) (Np.argsort keys).
Proof.
  apply Forall_forall. intros i Hi.
  apply (Permutation_in _ (argsort_perm keys)) in Hi.
  apply in_seq in Hi. lia.
Qed.

Lemma take_along_axis_nth {A : Type} (d : A) (arr : list A) (ind : list nat) :
  Forall (fun i => (i < length arr)%nat) ind ->
  Np.take_along_axis arr ind = Ok (map (fun i => nth i arr d) ind).
Proof.
  unfold Np.take_along_axis.
  induction 1 as [|i ind Hi _ IH]; simpl; [reflexivity |].
  destruct (nth_error arr i) as [x|] eqn:Hx.
  - simpl. rewrite IH. simpl.
    rewrite (nth_error_nth _ _ d Hx). reflexivity.
  - apply nth_error_None in Hx. lia.
Qed.

Lemma nth_all {A : Type} (d : A) (l : list A) :
  map (fun i => nth i l d) (seq 0 (length l)) = l.
Proof.
  induction l as [|x l IH]; simpl; [reflexivity |].
  f_equal. rewrite <- seq_shift, map_map. exact IH.
Qed.

Lemma combine_map_nth {A B : Type} (da : A) (db : B) (la : list A)
    (lb : list B) (ind : list nat) :
  length lb = length la ->
  combine (map (fun i => nth i la da) ind) (map (fun i => nth i lb db) ind)
  = map (fun i => nth i (combine la lb) (da, db)) ind.
Proof.
  intros Hlen. induction ind as [|i ind IH]; simpl; [reflexivity |].
  rewrite IH, combine_nth by (symmetry; exact Hlen). reflexivity.
Qed.

Lemma combine_concat {A B : Type} (la lb : list A) (ma mb : list B) :
  length ma = length la ->
  combine (la ++ lb)%list (ma ++ mb)%list
  = (combine la ma ++ combine lb mb)%list.
Proof.
  revert ma. induction la as [|a la IH]; intros [|m ma] Hlen; simpl in *;
    try discriminate; [reflexivity |].
  f_equal. apply IH. lia.
Qed.

Lemma concat_columns (files : list MultiTrack.score_file) :
  Forall aligned files ->
  length (concat (map MultiTrack.sf_end files))
  = length (concat (map MultiTrack.sf_start files)) /\
  length (concat (map MultiTrack.sf_notes files))
  = length (concat (map MultiTrack.sf_start files)) /\
  combine (combine (concat (map MultiTrack.sf_start files))
                   (concat (map MultiTrack.sf_end files)))
          (concat (map MultiTrack.sf_notes files))
  = concat (map rows files).
Proof.
  induction 1 as [|f files [He Hn] _ [IHe [IHn IH]]]; simpl.
  - auto.
  - rewrite !length_app, He, Hn, IHe, IHn.
    repeat split; try reflexivity.
    rewrite (combine_concat _ _ _ _ He), combine_concat.
    + rewrite IH. reflexivity.
    + rewrite length_combine, He, Hn. symmetry. apply Nat.min_id.
Qed.

Lemma concatenate_Ok {A B : Type} (f : A -> list B) (l : list A) :
  l <> [] -> Np.concatenate (map f l) = Ok (concat (map f l)).
Proof. destruct l; [congruence | reflexivity]. Qed.

(** The merge of at least one file whose columns are aligned returns:
    the Events are the rows of the files, reordered; the start times
    ascend; and there are as many Events as rows. *)
Theorem merge_scores_sorted (files : list MultiTrack.score_file) :
  files <> [] ->
  Forall aligned files ->
  exists d,
    MultiTrack.merge_scores files = Ok d /\
    Permutation (events d) (concat (map rows files)) /\
    Sorted Qle (start_times d) /\
    length (events d)
    = list_sum (map (fun f => length (MultiTrack.sf_start f)) files).
Proof.
  intros Hne Hal.
  destruct (concat_columns files Hal) as [He [Hn Hrows]].
  set (S := concat (map MultiTrack.sf_start files)) in *.
  set (E := concat (map MultiTrack.sf_end files)) in *.
  set (N := concat (map MultiTrack.sf_notes files)) in *.
  pose proof (argsort_in_range S) as Hrange.
  assert (HrE : Forall (fun i => (i < length E)%nat) (Np.argsort S))
    by (rewrite He; exact Hrange).
  assert (HrN : Forall (fun i => (i < length N)%nat) (Np.argsort S))
    by (rewrite Hn; exact Hrange).
  eexists. split.
  - unfold MultiTrack.merge_scores.
    rewrite !concatenate_Ok by exact Hne. fold S E N. simpl.
    rewrite (take_along_axis_nth 0%Q S _ Hrange). simpl.
    rewrite (take_along_axis_nth 0%Q E _ HrE). simpl.
    rewrite (take_along_axis_nth EmptyString N _ HrN). simpl.
    reflexivity.
  - unfold events. simpl.
    rewrite (combine_map_nth 0%Q 0%Q S E _ He).
    assert (Hlen : length N = length (combine S E))
      by (rewrite length_combine, He, Hn; symmetry; apply Nat.min_id).
    rewrite (combine_map_nth (0%Q, 0%Q) EmptyString (combine S E) N _ Hlen).
    rewrite Hrows.
    assert (Hcount : length (concat (map rows files)) = length S).
    { rewrite <- Hrows, length_combine, length_combine, He, Hn.
      rewrite !Nat.min_id. reflexivity. }
    repeat split.
    + eapply perm_trans; [apply Permutation_map, argsort_perm |].
      rewrite <- Hcount, nth_all. apply Permutation_refl.
    + apply argsort_sorted.
    + rewrite length_map, (Permutation_length (argsort_perm S)), length_seq.
      unfold S. clear. induction files as [|f files IH]; simpl;
        [reflexivity |]. rewrite length_app, IH. reflexivity.
Qed.

(** X26.  [get_score_mix_instruments] on known instruments whose score
    files were all read, at least one of them, with aligned columns: the
    result is the sorted merge of their rows. *)
Theorem score_mix_of_read_files (index : dataset_index) (disk : text_disk)
    (self : MultiTrack.t) (arg : MultiTrack.names) (entry : multitrack_entry)
    (files : list MultiTrack.score_file) :
  Forall (fun x => In x (MultiTrack.instruments self))
         (MultiTrack.as_list arg) ->
  assoc (MultiTrack.mtrack_id self) (ix_multitracks index) = Some entry ->
  mapM (MultiTrack.read_score disk (MultiTrack._data_home self))
       (MultiTrack.score_paths entry (MultiTrack.as_list arg)) = Ok files ->
  files <> [] ->
  Forall aligned files ->
  exists d,
    MultiTrack.get_score_mix_instruments index disk self arg = Ok d /\
    Permutation (events d) (concat (map rows files)) /\
    Sorted Qle (start_times d) /\
    length (events d)
    = list_sum (map (fun f => length (MultiTrack.sf_start f)) files).
Proof.
  intros Hknown Hentry Hread Hne Hal.
  destruct (merge_scores_sorted files Hne Hal) as [d [Hd Hprops]].
  exists d. split; [| exact Hprops].
  unfold MultiTrack.get_score_mix_instruments.
  rewrite (all_known_true _ _ Hknown), Hentry, Hread. exact Hd.
Qed.

(** The violin (two rows) and the oboe (three rows) of the sample
    piece, merged: five Events in the order of their start times. *)
Example score_mix_violin_oboe :
  MultiTrack.get_score_mix_instruments Sample.index Sample.score_files
    Sample.mozart_mtrack (MultiTrack.Many ["violin"; "oboe"])
  = Ok {| start_times := [0; 1 # 4; 1 # 2; 1; 5 # 2];
          end_times := [1; 1 # 2; 3 # 4; 2; 3];
          event := ["C4"; "G4"; "A4"; "D4"; "B4"] |}.
Proof. reflexivity. Qed.

(** * Further properties of the module *)

(** ** Splitting and joining *)

Lemma split_nonempty (c : ascii) (s : string) : PyStr.split c s <> [].
Proof.
  destruct s as [|a s]; simpl; [discriminate |].
  destruct (Ascii.eqb a c); [discriminate |].
  destruct (PyStr.split c s); discriminate.
Qed.

Lemma split_app (c : ascii) (a b : string) :
  PyStr.split c (a ++ String c b)
  = (PyStr.split c a ++ PyStr.split c b)%list.
Proof.
  induction a as [|x a IH]; simpl.
  - rewrite Ascii.eqb_refl. reflexivity.
  - destruct (Ascii.eqb x c); [rewrite IH; reflexivity |].
    rewrite IH. pose proof (split_nonempty c a) as Hne.
    destruct (PyStr.split c a); [congruence | reflexivity].
Qed.

Lemma split_free (c : ascii) (s : string) :
  free_of c s -> PyStr.split c s = [s].
Proof.
  unfold free_of. induction s as [|a s IH]; simpl; intros Hfree;
    [reflexivity |].
  destruct (Ascii.eqb_spec a c) as [->|Hne]; [tauto |].
  rewrite IH by tauto. reflexivity.
Qed.

(** ** The constructor of Track *)

(** X2.  For a sub-track id of the form [piece-instrument], neither part
    holding a ['-'], a constructed Track has that piece and that
    instrument; what follows a second ['-'] is dropped. *)
Theorem Track_init_piece_instrument (piece instrument rest : string)
    (data_home dataset_name : string) (index : dataset_index)
    (self : Track.t) :
  free_of "-" piece -> free_of "-" instrument ->
  (Track.init (piece ++ "-" ++ instrument) data_home dataset_name index tt
   = Ok self ->
   Track.piece self = piece /\ Track.instrument self = instrument) /\
  (Track.init (piece ++ "-" ++ instrument ++ "-" ++ rest)
              data_home dataset_name index tt = Ok self ->
   Track.piece self = piece /\ Track.instrument self = instrument).
Proof.
  intros Hp Hi.
  assert (Hshort : PyStr.split "-" (piece ++ "-" ++ instrument)
                   = [piece; instrument]).
  { change (piece ++ "-" ++ instrument)
      with (piece ++ String "-" instrument).
    rewrite split_app, (split_free _ _ Hp), (split_free _ _ Hi).
    reflexivity. }
  assert (Hlong : exists more,
             PyStr.split "-" (piece ++ "-" ++ instrument ++ "-" ++ rest)
             = piece :: instrument :: more).
  { change (piece ++ "-" ++ instrument ++ "-" ++ rest)
      with (piece ++ String "-" (instrument ++ String "-" rest)).
    rewrite split_app, split_app, (split_free _ _ Hp), (split_free _ _ Hi).
    eexists. reflexivity. }
  destruct Hlong as [more Hlong].
  split; unfold Track.init; intros Hinit;
    (destruct (Track.core_init _ index) as [paths|]; [| discriminate]);
    unfold Py.bind at 1 in Hinit;
    [rewrite Hshort in Hinit | rewrite Hlong in Hinit];
    simpl in Hinit;
    (destruct (Track.path_at paths "notes"); [| discriminate]);
    simpl in Hinit;
    (destruct (Track.path_at paths "notes_original"); [| discriminate]);
    simpl in Hinit; injection Hinit as <-; simpl; auto.
Qed.

Lemma Track_init_piece_instrument_witness :
  Track.piece Sample.violin = "mozart" /\
  Track.instrument Sample.violin = "violin".
Proof.
  apply (proj1 (Track_init_piece_instrument "mozart" "violin" EmptyString
                  Sample.data_home "phenicx_anechoic" Sample.index
                  Sample.violin
                  ltac:(unfold free_of; simpl; intuition discriminate)
                  ltac:(unfold free_of; simpl; intuition discriminate))).
  reflexivity.
Defined.

(** X3.  For a sub-track id that is in the index, the constructor raises
    IndexError when the id holds no ['-'], and otherwise KeyError when
    the entry lacks the key ['notes'] or the key ['notes_original']. *)
Theorem Track_init_errors (track_id data_home dataset_name : string)
    (index : dataset_index) (paths : track_paths) :
  assoc track_id (ix_tracks index) = Some paths ->
  (free_of "-" track_id ->
   Track.init track_id data_home dataset_name index tt = Raise IndexError) /\
  (~ free_of "-" track_id ->
   assoc "notes" paths = None \/ assoc "notes_original" paths = None ->
   Track.init track_id data_home dataset_name index tt = Raise KeyError).
Proof.
  intros Hpaths. unfold Track.init, Track.core_init. rewrite Hpaths.
  unfold Py.bind at 1. split.
  - intros Hfree. rewrite (split_free _ _ Hfree). reflexivity.
  - intros Hdash Hmissing.
    assert (Htwo : exists p i more,
               PyStr.split "-" track_id = p :: i :: more).
    { clear - Hdash. unfold free_of in Hdash.
      induction track_id as [|a s IH]; simpl in *; [tauto |].
      destruct (Ascii.eqb_spec a "-"%char) as [->|Hne].
      - pose proof (split_nonempty "-" s) as Hs.
        destruct (PyStr.split "-" s) as [|h t]; [congruence |].
        eexists _, _, _. reflexivity.
      - destruct IH as [p [i [more Hs]]]; [tauto |].
        rewrite Hs. eexists _, _, _. reflexivity. }
    destruct Htwo as [p [i [more Hsplit]]]. rewrite Hsplit. simpl.
    unfold Track.path_at.
    destruct Hmissing as [Hn | Hn]; rewrite Hn;
      [reflexivity | destruct (assoc "notes" paths); reflexivity].
Qed.

Lemma Track_init_errors_witness :
  Track.init "celesta" "/data" "phenicx_anechoic" Edge.index tt
  = Raise IndexError /\
  Track.init "mozart-harp" "/data" "phenicx_anechoic" Edge.index tt
  = Raise KeyError.
Proof.
  split.
  - eapply (proj1 (Track_init_errors "celesta" "/data" "phenicx_anechoic"
                     Edge.index _ eq_refl)).
    unfold free_of. simpl. intuition discriminate.
  - eapply (proj2 (Track_init_errors "mozart-harp" "/data"
                     "phenicx_anechoic" Edge.index _ eq_refl)).
    + unfold free_of. simpl. tauto.
    + left. reflexivity.
Defined.

(** ** The audio of a Track at its edges *)

Section TrackAudioEdges.

Context {sample : Type} `{SampleOps sample}.

Variable load : string -> result (list sample * N).

(** X4.  A track without audio paths has no audio: the property [audio]
    and [get_audio_voice], at every index, raise IndexError. *)
Theorem no_voice_IndexError (self : Track.t) (id_voice : Z) :
  Track.audio_paths self = [] ->
  Track.audio load self = Raise IndexError /\
  Track.get_audio_voice load self id_voice = Raise IndexError.
Proof.
  intros Hempty. unfold Track.audio, Track.get_audio_voice, Track.item_at.
  rewrite Hempty. simpl. split; [reflexivity |].
  rewrite Z.add_0_r.
  destruct (id_voice <? 0)%Z eqn:Hneg; [rewrite Hneg; reflexivity |].
  rewrite Hneg. unfold Track.item. destruct (Z.to_nat id_voice); reflexivity.
Qed.

(** X9.  [get_audio_voice(i)] loads the path at index [i] for
    [0 <= i < n], and the path at index [n + i] for [-n <= i < 0], where
    [n] is the number of audio paths; every other index raises
    IndexError. *)
Theorem get_audio_voice_index (self : Track.t) (id_voice : Z) :
  let n := Z.of_nat (length (Track.audio_paths self)) in
  ((- n <= id_voice < n)%Z ->
   exists path,
     nth_error (Track.audio_paths self) (Z.to_nat (id_voice mod n))
     = Some path /\
     Track.get_audio_voice load self id_voice = load path) /\
  ((id_voice < - n \/ n <= id_voice)%Z ->
   Track.get_audio_voice load self id_voice = Raise IndexError).
Proof.
  intros n. unfold Track.get_audio_voice, Track.item_at, Track.item.
  fold n. split.
  - intros Hrange.
    assert (Hj : (if (id_voice <? 0)%Z then (id_voice + n)%Z else id_voice)
                 = (id_voice mod n)%Z).
    { destruct (Z.ltb_spec id_voice 0).
      - apply Z.mod_unique with (q := (-1)%Z); lia.
      - symmetry. apply Z.mod_small. lia. }
    rewrite Hj.
    assert (Hpos : (0 <= id_voice mod n < n)%Z)
      by (apply Z.mod_pos_bound; lia).
    destruct (Z.ltb_spec (id_voice mod n) 0); [lia |].
    destruct (nth_error (Track.audio_paths self)
                        (Z.to_nat (id_voice mod n))) as [path|] eqn:Hnth.
    + exists path. split; reflexivity.
    + apply nth_error_None in Hnth. lia.
  - intros Hout. destruct (Z.ltb_spec id_voice 0).
    + destruct (Z.ltb_spec (id_voice + n) 0); [reflexivity | lia].
    + destruct (Z.ltb_spec id_voice 0); [lia |].
      destruct (nth_error (Track.audio_paths self) (Z.to_nat id_voice))
        eqn:Hnth; [| reflexivity].
      assert (Hlt : (Z.to_nat id_voice < length (Track.audio_paths self))%nat)
        by (apply nth_error_Some; congruence).
      lia.
Qed.

(** X10.  For a track with a single voice, [audio] is that voice as the
    loader returns it, and so is [get_audio_voice(0)]. *)
Theorem single_voice_audio (self : Track.t) (path : string) :
  Track.audio_paths self = [path] ->
  Track.n_voices self = 1%nat ->
  Track.audio load self = load path /\
  Track.get_audio_voice load self 0 = load path.
Proof.
  intros Hpaths Hn.
  unfold Track.audio, Track.get_audio_voice, Track.item_at, Track.item.
  rewrite Hn, Hpaths. simpl. split; [| reflexivity].
  destruct (load path) as [[buffer rate]|]; reflexivity.
Qed.

End TrackAudioEdges.

(** X6.  When a track has an audio path, [audio] ends at the first
    voice: with IOError when its file is missing, and with NameError
    when it exists, for [load_audio] then runs its body. *)
Theorem audio_first_voice {sample : Type} `{SampleOps sample}
    (disk : audio_disk sample) (self : Track.t) (path : string)
    (rest : list string) :
  Track.audio_paths self = path :: rest ->
  (disk path = None ->
   Track.audio (load_audio disk) self = Raise IOError) /\
  (disk path <> None ->
   Track.audio (load_audio disk) self = Raise NameError).
Proof.
  intros Hpaths. unfold Track.audio, Track.item. rewrite Hpaths. simpl.
  unfold load_audio, coerce_to_bytes_io.
  destruct (disk path) as [decoded|]; split; intros Hdisk;
    try reflexivity; congruence.
Qed.

Lemma audio_first_voice_witness :
  Track.audio (load_audio Edge.no_audio) Sample.violin = Raise IOError /\
  Track.audio (load_audio Sample.audio_files) Sample.violin
  = Raise NameError.
Proof.
  split.
  - apply (proj1 (audio_first_voice Edge.no_audio Sample.violin
                    "/data/audio/mozart/violin_1.wav"
                    ["/data/audio/mozart/violin_2.wav"] eq_refl)).
    reflexivity.
  - apply (proj2 (audio_first_voice Sample.audio_files Sample.violin
                    "/data/audio/mozart/violin_1.wav"
                    ["/data/audio/mozart/violin_2.wav"] eq_refl)).
    discriminate.
Defined.

Example Track_init_triangle :
  Track.init "mozart-triangle" "/data" "phenicx_anechoic" Edge.index tt
  = Ok Edge.triangle.
Proof. reflexivity. Qed.

Lemma no_voice_IndexError_witness :
  Track.audio (load_audio Sample.audio_files) Edge.triangle
  = Raise IndexError /\
  Track.get_audio_voice (load_audio Sample.audio_files) Edge.triangle 0
  = Raise IndexError.
Proof.
  apply (no_voice_IndexError (load_audio Sample.audio_files) Edge.triangle 0).
  reflexivity.
Defined.

Lemma get_audio_voice_index_witness :
  Track.get_audio_voice (load_audio Sample.audio_files) Sample.violin (-1)
  = load_audio Sample.audio_files "/data/audio/mozart/violin_2.wav" /\
  Track.get_audio_voice (load_audio Sample.audio_files) Sample.violin 2
  = Raise IndexError.
Proof.
  split.
  - destruct (proj1 (get_audio_voice_index (load_audio Sample.audio_files)
                       Sample.violin (-1)%Z)) as [path [Hpath Hload]].
    + simpl. lia.
    + rewrite Hload. simpl in Hpath. injection Hpath as <-. reflexivity.
  - apply (proj2 (get_audio_voice_index (load_audio Sample.audio_files)
                    Sample.violin 2%Z)).
    simpl. lia.
Defined.

Lemma single_voice_audio_witness :
  Track.audio (load_audio Sample.audio_files) Sample.oboe
  = load_audio Sample.audio_files "/data/audio/mozart/oboe_1.wav" /\
  Track.get_audio_voice (load_audio Sample.audio_files) Sample.oboe 0
  = load_audio Sample.audio_files "/data/audio/mozart/oboe_1.wav".
Proof.
  apply (single_voice_audio (load_audio Sample.audio_files) Sample.oboe
           "/data/audio/mozart/oboe_1.wav").
  - reflexivity.
  - reflexivity.
Defined.

(** ** Construction of a MultiTrack, continued *)

(** X11.  The construction of a MultiTrack returns only for a piece of
    the index whose ['tracks'] entry is empty; the object then has no
    sub-track ids and no tracks, and carries the piece id and data home
    it was given. *)
Theorem init_returns_without_tracks (index : dataset_index)
    (mtrack_id data_home : string) (self : MultiTrack.t) :
  MultiTrack.init index mtrack_id data_home = Ok self ->
  (exists entry,
     assoc mtrack_id (ix_multitracks index) = Some entry /\
     mt_tracks entry = []) /\
  MultiTrack.mtrack_ids self = [] /\
  MultiTrack.tracks self = [] /\
  MultiTrack.mtrack_id self = mtrack_id /\
  MultiTrack._data_home self = data_home.
Proof.
  intros Hinit.
  destruct (assoc mtrack_id (ix_multitracks index)) as [entry|] eqn:Hentry.
  - destruct (mt_tracks entry) as [|kv d] eqn:Htracks.
    + rewrite (init_unfold _ _ _ _ Hentry) in Hinit.
      unfold sorted_keys in Hinit. rewrite Htracks in Hinit. simpl in Hinit.
      injection Hinit as <-. simpl. repeat split; eauto.
    + rewrite (init_with_subtracks _ _ _ _ Hentry) in Hinit;
        [discriminate | congruence].
  - unfold MultiTrack.init in Hinit. rewrite Hentry in Hinit. discriminate.
Qed.

Lemma init_returns_without_tracks_witness :
  exists self,
    MultiTrack.init Edge.index "sonata" "/data" = Ok self /\
    MultiTrack.mtrack_ids self = [] /\ MultiTrack.tracks self = [].
Proof.
  eexists. split; [reflexivity |].
  destruct (init_returns_without_tracks Edge.index "sonata" "/data" _
              eq_refl) as [_ [Hids [Htracks _]]].
  split; [exact Hids | exact Htracks].
Defined.

Lemma section_of_In (instrument section : string) :
  section_of instrument section -> In (instrument, section) DATASET_SECTIONS.
Proof.
  unfold section_of. induction DATASET_SECTIONS as [|[k v] d IH]; simpl;
    [discriminate |].
  destruct (String.eqb_spec k instrument) as [->|Hne].
  - intros Hs. injection Hs as <-. left. reflexivity.
  - intros Hs. right. apply IH, Hs.
Qed.

Lemma derive_sections_complete (instruments : list string)
    (instrument section : string) :
  In instrument instruments -> section_of instrument section ->
  In section (MultiTrack.derive_sections instruments).
Proof.
  intros Hin Hsec. unfold MultiTrack.derive_sections.
  rewrite sorted_In, dedup_In, in_map_iff.
  exists (instrument, section). split; [reflexivity |].
  apply filter_In. split; [apply section_of_In, Hsec |].
  simpl. apply mem_In, Hin.
Qed.

(** X12.  In a constructed MultiTrack, the section of every instrument
    of the piece that the section map knows is in [sections], and
    [sections] holds no other name than ['brass'], ['strings'] and
    ['woodwinds']. *)
Theorem sections_complete (index : dataset_index)
    (mtrack_id data_home : string) (self : MultiTrack.t) :
  MultiTrack.init index mtrack_id data_home = Ok self ->
  (forall instrument section,
     In instrument (MultiTrack.instruments self) ->
     section_of instrument section ->
     In section (MultiTrack.sections self)) /\
  (forall section, In section (MultiTrack.sections self) ->
     In section ["brass"; "strings"; "woodwinds"]).
Proof.
  intros Hinit.
  destruct (init_Ok_fields _ _ _ _ Hinit) as [entry [_ [_ Hsec]]].
  rewrite Hsec. split.
  - intros i s. apply derive_sections_complete.
  - intros s Hs. apply derive_sections_image in Hs.
    destruct Hs as [i [_ Hi]]. apply section_of_In in Hi. simpl in Hi.
    repeat (destruct Hi as [Hi|Hi];
            [injection Hi as _ <-; simpl; tauto |]).
    contradiction.
Qed.

Lemma sections_complete_witness :
  exists self,
    MultiTrack.init Sample.index "etude" Sample.data_home = Ok self /\
    In "brass" (MultiTrack.sections self).
Proof.
  eexists. split; [reflexivity |].
  apply (proj1 (sections_complete Sample.index "etude" Sample.data_home _
                  eq_refl) "trumpet" "brass").
  - simpl. tauto.
  - reflexivity.
Defined.

(** ** Selection by instrument name *)

Lemma join_cons (x y : string) (l : list string) :
  PyStr.join "|" (x :: y :: l) = x ++ String "|" (PyStr.join "|" (y :: l)).
Proof. reflexivity. Qed.

Lemma alternatives_join (l : list string) :
  l <> [] ->
  Re.alternatives (PyStr.join "|" l) = concat (map (PyStr.split "|") l).
Proof.
  unfold Re.alternatives. induction l as [|x l IH]; [congruence |].
  intros _. destruct l as [|y l].
  - simpl. rewrite app_nil_r. reflexivity.
  - rewrite join_cons, split_app, IH by discriminate. reflexivity.
Qed.

Lemma alternatives_plain (l : list string) :
  l <> [] -> Forall plain_name l ->
  Re.alternatives (PyStr.join "|" l) = l.
Proof.
  intros Hne Hplain. rewrite (alternatives_join _ Hne). clear Hne.
  induction Hplain as [|x l Hx _ IH]; simpl.
  - reflexivity.
  - rewrite (split_free _ _ Hx), IH. reflexivity.
Qed.

Lemma existsb_same_elements {A : Type} (f : A -> bool) (l l' : list A) :
  (forall x, In x l <-> In x l') -> existsb f l = existsb f l'.
Proof.
  intros Hsame. apply eq_true_iff_eq. rewrite !existsb_exists.
  split; intros [x [Hx Hf]]; exists x; split; auto; apply Hsame; exact Hx.
Qed.

Lemma forallb_same_elements {A : Type} (f : A -> bool) (l l' : list A) :
  (forall x, In x l <-> In x l') -> forallb f l = forallb f l'.
Proof.
  intros Hsame. apply eq_true_iff_eq. rewrite !forallb_forall.
  split; intros Hall x Hx; apply Hall, Hsame, Hx.
Qed.

Lemma names_match_same_elements (l l' : list string) (subject : string) :
  (forall x, In x l <-> In x l') ->
  MultiTrack.names_match l subject = MultiTrack.names_match l' subject.
Proof.
  intros Hsame. unfold MultiTrack.names_match, Re.search_ignorecase.
  destruct l as [|x l].
  - destruct l' as [|y l']; [reflexivity |].
    exfalso. apply (Hsame y). left. reflexivity.
  - destruct l' as [|y l'].
    + exfalso. apply (Hsame x). left. reflexivity.
    + rewrite !alternatives_join by discriminate.
      apply existsb_same_elements. intros alt.
      rewrite !in_concat. split; intros [alts [Halts Halt]];
        apply in_map_iff in Halts; destruct Halts as [name [<- Hname]];
        exists (PyStr.split "|" name); (split; [| exact Halt]);
        apply in_map, Hsame, Hname.
Qed.

Lemma word_plain_name (name : string) : word name -> plain_name name.
Proof.
  unfold word, plain_name, free_of. intros Hword Hbar.
  rewrite Forall_forall in Hword. apply Hword in Hbar. discriminate.
Qed.

(** X13.  For a non-empty request of known instrument names that are
    words of ASCII letters and digits, and sub-track ids that are ASCII
    text, [get_trackids] returns the sub-track ids of the piece in which
    one of the names occurs, the case of letters ignored, and no other
    id. *)
Theorem get_trackids_matching (self : MultiTrack.t) (arg : MultiTrack.names)
    (ids : list string) :
  MultiTrack.as_list arg <> [] ->
  Forall word (MultiTrack.as_list arg) ->
  Forall ascii_text (MultiTrack.mtrack_ids self) ->
  MultiTrack.get_trackids self arg = Ok ids ->
  forall tid,
    In tid ids <->
    In tid (MultiTrack.mtrack_ids self) /\
    exists name, In name (MultiTrack.as_list arg) /\ occurs_in name tid.
Proof.
  intros Hne Hword _. unfold MultiTrack.get_trackids.
  assert (Hplain : Forall plain_name (MultiTrack.as_list arg))
    by (eapply Forall_impl; [apply word_plain_name | exact Hword]).
  destruct (MultiTrack.all_known self (MultiTrack.as_list arg));
    [| discriminate].
  intros Hids tid. injection Hids as <-.
  rewrite filter_In. unfold MultiTrack.names_match, Re.search_ignorecase.
  rewrite (alternatives_plain _ Hne Hplain), existsb_exists.
  unfold occurs_in. tauto.
Qed.

Lemma get_trackids_matching_witness :
  In "mozart-violin" ["mozart-violin"] <->
  In "mozart-violin" (MultiTrack.mtrack_ids Sample.mozart_mtrack) /\
  exists name, In name ["violin"] /\ occurs_in name "mozart-violin".
Proof.
  apply (get_trackids_matching Sample.mozart_mtrack
           (MultiTrack.One "violin") ["mozart-violin"]).
  - discriminate.
  - repeat constructor.
  - repeat constructor.
  - reflexivity.
Defined.

(** X14.  For names that are words of ASCII letters and digits, only the
    set of requested names counts: two requests with the same names, in
    any order and with any repetitions, select the same sub-track ids,
    the same score and the same audio mix. *)
Theorem selection_same_names {sample : Type} `{SampleOps sample}
    (index : dataset_index) (disk : text_disk) (audio : audio_disk sample)
    (self : MultiTrack.t) (l l' : list string)
    (weights : option (list sample)) (average enforce_length : bool) :
  Forall word l ->
  (forall x, In x l <-> In x l') ->
  MultiTrack.get_trackids self (MultiTrack.Many l)
  = MultiTrack.get_trackids self (MultiTrack.Many l') /\
  MultiTrack.get_score_mix_instruments index disk self (MultiTrack.Many l)
  = MultiTrack.get_score_mix_instruments index disk self (MultiTrack.Many l') /\
  MultiTrack.get_audio_mix_instruments audio self (MultiTrack.Many l)
    weights average enforce_length
  = MultiTrack.get_audio_mix_instruments audio self (MultiTrack.Many l')
      weights average enforce_length.
Proof.
  intros _ Hsame.
  assert (Hknown : MultiTrack.all_known self l = MultiTrack.all_known self l')
    by (apply forallb_same_elements, Hsame).
  assert (Hids : MultiTrack.get_trackids self (MultiTrack.Many l)
                 = MultiTrack.get_trackids self (MultiTrack.Many l')).
  { unfold MultiTrack.get_trackids. simpl. rewrite Hknown.
    rewrite (filter_ext _ _
               (fun tid => names_match_same_elements l l' tid Hsame)).
    reflexivity. }
  repeat split.
  - exact Hids.
  - unfold MultiTrack.get_score_mix_instruments, MultiTrack.score_paths.
    simpl. rewrite Hknown.
    destruct (MultiTrack.all_known self l'); [| reflexivity].
    destruct (assoc _ (ix_multitracks index)) as [entry|]; [| reflexivity].
    rewrite (filter_ext
               (fun kv => PyStr.contains "score-" (fst kv)
                          && MultiTrack.names_match l (ref_path (snd kv)))
               (fun kv => PyStr.contains "score-" (fst kv)
                          && MultiTrack.names_match l' (ref_path (snd kv)))).
    + reflexivity.
    + intros kv. rewrite (names_match_same_elements l l' _ Hsame).
      reflexivity.
  - unfold MultiTrack.get_audio_mix_instruments. rewrite Hids. reflexivity.
Qed.

Lemma selection_same_names_witness :
  MultiTrack.get_trackids Sample.mozart_mtrack
    (MultiTrack.Many ["violin"; "oboe"; "violin"])
  = MultiTrack.get_trackids Sample.mozart_mtrack
      (MultiTrack.Many ["oboe"; "violin"]).
Proof.
  apply (selection_same_names Sample.index Sample.score_files
           Sample.audio_files Sample.mozart_mtrack
           ["violin"; "oboe"; "violin"] ["oboe"; "violin"] None true true).
  - repeat constructor.
  - intros x. simpl. tauto.
Defined.

(** ** Mixes by instrument and by section *)

Lemma all_known_instruments (self : MultiTrack.t) :
  MultiTrack.all_known self (MultiTrack.instruments self) = true.
Proof.
  apply all_known_true, Forall_forall. auto.
Qed.

Lemma zip_cons_singletons {A : Type} (m : list A) :
  Np.zip_cons m (repeat [] (length m)) = map (fun x => [x]) m.
Proof.
  induction m as [|x m IH]; simpl; [reflexivity |]. rewrite IH. reflexivity.
Qed.

Lemma stack_last_one {A : Type} (m : list A) :
  Np.stack_last [m] = Ok (map (fun x => [x]) m).
Proof.
  unfold Np.stack_last. simpl. rewrite zip_cons_singletons. reflexivity.
Qed.

Section MixProperties.

Context {sample : Type} `{SampleOps sample}.

(** X15.  [get_audio_mix_instruments] refuses a request that names an
    instrument outside the piece's instrument set with AssertionError,
    whatever the disk, the weights and the flags; no file is decoded. *)
Theorem audio_mix_unknown_instrument (disk : audio_disk sample)
    (self : MultiTrack.t) (arg : MultiTrack.names) (x : string)
    (weights : option (list sample)) (average enforce_length : bool) :
  In x (MultiTrack.as_list arg) ->
  ~ In x (MultiTrack.instruments self) ->
  MultiTrack.get_audio_mix_instruments disk self arg weights average
                                       enforce_length
  = Raise AssertionError.
Proof.
  intros Hx Hunknown.
  unfold MultiTrack.get_audio_mix_instruments, MultiTrack.get_trackids.
  rewrite (all_known_false self _ x Hx Hunknown). reflexivity.
Qed.

(** X16.  The request of [audio_mix] passes the membership assertion:
    the property mixes the sub-tracks whose id matches one of the piece's
    instrument names, unweighted, averaged and padded, and leaves out a
    sub-track whose id matches none. *)
Theorem audio_mix_selects (disk : audio_disk sample) (self : MultiTrack.t) :
  MultiTrack.get_trackids self (MultiTrack.Many (MultiTrack.instruments self))
  = Ok (filter (MultiTrack.names_match (MultiTrack.instruments self))
               (MultiTrack.mtrack_ids self)) /\
  MultiTrack.audio_mix disk self
  = MultiTrack.get_target disk self
      (filter (MultiTrack.names_match (MultiTrack.instruments self))
              (MultiTrack.mtrack_ids self))
      None true false.
Proof.
  unfold MultiTrack.audio_mix, MultiTrack.get_audio_mix_instruments,
    MultiTrack.get_trackids. simpl.
  rewrite all_known_instruments. split; reflexivity.
Qed.

(** X17.  [get_audio_sections] asks for every instrument that the
    section map puts in a section: when one of them is not in the
    piece's instrument set, the request for that section fails with
    AssertionError. *)
Theorem section_needs_all_instruments (disk : audio_disk sample)
    (self : MultiTrack.t) (arg : MultiTrack.names) (section : string)
    (rest : list string) (instrument : string)
    (weights : option (list sample)) (average : bool) :
  MultiTrack.as_list arg = section :: rest ->
  section_of instrument section ->
  ~ In instrument (MultiTrack.instruments self) ->
  MultiTrack.get_audio_sections disk self arg weights average
  = Raise AssertionError.
Proof.
  intros Harg Hsec Hunknown. unfold MultiTrack.get_audio_sections.
  rewrite Harg. simpl.
  unfold MultiTrack.get_audio_mix_instruments, MultiTrack.get_trackids.
  rewrite (all_known_false self _ instrument); [reflexivity | | exact Hunknown].
  simpl. unfold MultiTrack.instruments_for_section.
  apply in_map_iff. exists (instrument, section). split; [reflexivity |].
  apply filter_In. split; [apply section_of_In, Hsec |].
  simpl. apply String.eqb_refl.
Qed.

(** X18.  A name that is no section of the section map is not refused
    by [get_audio_sections]: its list of instruments is empty, the empty
    request selects every sub-track of the piece, and the result is the
    length-enforced mix of all of them, as a single column. *)
Theorem unknown_section_mixes_all (disk : audio_disk sample)
    (self : MultiTrack.t) (section : string)
    (weights : option (list sample)) (average : bool) :
  section <> "strings" -> section <> "woodwinds" -> section <> "brass" ->
  MultiTrack.instruments_for_section section = [] /\
  MultiTrack.get_audio_sections disk self (MultiTrack.One section)
                                weights average
  = (m <- MultiTrack.get_target disk self (MultiTrack.mtrack_ids self)
                                weights average true ;;
     Ok (map (fun x => [x]) m)).
Proof.
  intros Hs Hw Hb.
  assert (Hnone : MultiTrack.instruments_for_section section = []).
  { assert (Hs' : String.eqb "strings" section = false)
      by (apply String.eqb_neq; congruence).
    assert (Hw' : String.eqb "woodwinds" section = false)
      by (apply String.eqb_neq; congruence).
    assert (Hb' : String.eqb "brass" section = false)
      by (apply String.eqb_neq; congruence).
    unfold MultiTrack.instruments_for_section, DATASET_SECTIONS.
    cbn [filter snd]. rewrite Hs', Hw', Hb'. reflexivity. }
  split; [exact Hnone |].
  unfold MultiTrack.get_audio_sections. simpl. rewrite Hnone.
  unfold MultiTrack.get_audio_mix_instruments, MultiTrack.get_trackids.
  simpl. rewrite (filter_all _ _ names_match_nil). simpl.
  destruct (MultiTrack.get_target disk self _ weights average true);
    simpl; [apply stack_last_one | reflexivity].
Qed.

(** X19.  A request for no instrument, or for no section, has nothing
    to stack: [get_audio_instruments([])] and [get_audio_sections([])]
    raise ValueError. *)
Theorem nothing_to_stack (disk : audio_disk sample) (self : MultiTrack.t)
    (weights : option (list sample)) (average enforce_length : bool) :
  MultiTrack.get_audio_instruments disk self (MultiTrack.Many [])
                                   weights average enforce_length
  = Raise ValueError /\
  MultiTrack.get_audio_sections disk self (MultiTrack.Many [])
                                weights average
  = Raise ValueError.
Proof. split; reflexivity. Qed.

End MixProperties.

Lemma audio_mix_unknown_instrument_witness :
  MultiTrack.get_audio_mix_instruments Sample.audio_files
    Sample.mozart_mtrack (MultiTrack.One "tuba") None true true
  = Raise AssertionError.
Proof.
  apply (audio_mix_unknown_instrument Sample.audio_files
           Sample.mozart_mtrack (MultiTrack.One "tuba") "tuba").
  - simpl. tauto.
  - simpl. intuition discriminate.
Defined.

Lemma section_needs_all_instruments_witness :
  MultiTrack.get_audio_sections Sample.level_audio_files
    Sample.mozart_mtrack (MultiTrack.One "brass") None true
  = Raise AssertionError.
Proof.
  apply (section_needs_all_instruments Sample.level_audio_files
           Sample.mozart_mtrack (MultiTrack.One "brass") "brass" []
           "trumpet").
  - reflexivity.
  - reflexivity.
  - simpl. intuition discriminate.
Defined.

Lemma unknown_section_mixes_all_witness :
  MultiTrack.instruments_for_section "percussion" = [] /\
  MultiTrack.get_audio_sections Sample.level_audio_files
    Sample.mozart_mtrack (MultiTrack.One "percussion") None true
  = (m <- MultiTrack.get_target Sample.level_audio_files
            Sample.mozart_mtrack ["mozart-oboe"; "mozart-violin"]
            None true true ;;
     Ok (map (fun x => [x]) m)).
Proof.
  apply (unknown_section_mixes_all Sample.level_audio_files
           Sample.mozart_mtrack "percussion" None true);
    discriminate.
Defined.

(** ** Scores, continued *)

Example init_sonata :
  MultiTrack.init Edge.index "sonata" "/data" = Ok Edge.sonata_mtrack.
Proof. reflexivity. Qed.

(** X21.  Whenever [get_score_mix_instruments] returns, the start times
    of the result ascend and its three arrays have one length, whatever
    the files held. *)
Theorem score_mix_invariant (index : dataset_index) (disk : text_disk)
    (self : MultiTrack.t) (arg : MultiTrack.names) (d : EventData) :
  MultiTrack.get_score_mix_instruments index disk self arg = Ok d ->
  Sorted Qle (start_times d) /\
  length (end_times d) = length (start_times d) /\
  length (event d) = length (start_times d).
Proof.
  unfold MultiTrack.get_score_mix_instruments.
  destruct (MultiTrack.all_known self _); [| discriminate].
  destruct (assoc _ (ix_multitracks index)) as [entry|]; [| discriminate].
  destruct (mapM _ (MultiTrack.score_paths entry _)) as [files|];
    [| discriminate].
  simpl. unfold MultiTrack.merge_scores.
  destruct (Np.concatenate (map MultiTrack.sf_start files)) as [starts|];
    [| discriminate].
  destruct (Np.concatenate (map MultiTrack.sf_end files)) as [ends|];
    [| discriminate].
  destruct (Np.concatenate (map MultiTrack.sf_notes files)) as [notes|];
    [| discriminate].
  simpl.
  rewrite (take_along_axis_nth 0%Q starts _ (argsort_in_range starts)).
  simpl.
  destruct (Np.take_along_axis ends _) as [ends'|] eqn:Hends;
    [| discriminate].
  destruct (Np.take_along_axis notes _) as [notes'|] eqn:Hnotes;
    [| discriminate].
  simpl. intros Hd. injection Hd as <-. simpl.
  apply mapM_Ok_length in Hends. apply mapM_Ok_length in Hnotes.
  rewrite length_map. repeat split; try assumption.
  apply argsort_sorted.
Qed.

Lemma score_mix_invariant_witness :
  Sorted Qle [0; 1 # 4; 1 # 2; 1; 5 # 2] /\
  length [1; 1 # 2; 3 # 4; 2; 3] = 5%nat /\
  length ["C4"; "G4"; "A4"; "D4"; "B4"] = 5%nat.
Proof.
  apply (score_mix_invariant Sample.index Sample.score_files
           Sample.mozart_mtrack (MultiTrack.Many ["violin"; "oboe"])
           {| start_times := [0; 1 # 4; 1 # 2; 1; 5 # 2];
              end_times := [1; 1 # 2; 3 # 4; 2; 3];
              event := ["C4"; "G4"; "A4"; "D4"; "B4"] |}).
  reflexivity.
Defined.

(** X22.  A request for known instruments none of whose names occurs in
    the path of a score entry resolves to no file;
    [get_score_mix_instruments] then raises ValueError, for there is
    nothing to concatenate. *)
Theorem score_without_path (index : dataset_index) (disk : text_disk)
    (self : MultiTrack.t) (arg : MultiTrack.names) (entry : multitrack_entry) :
  Forall (fun x => In x (MultiTrack.instruments self))
         (MultiTrack.as_list arg) ->
  assoc (MultiTrack.mtrack_id self) (ix_multitracks index) = Some entry ->
  MultiTrack.score_paths entry (MultiTrack.as_list arg) = [] ->
  MultiTrack.get_score_mix_instruments index disk self arg
  = Raise ValueError.
Proof.
  intros Hknown Hentry Hnone. unfold MultiTrack.get_score_mix_instruments.
  rewrite (all_known_true _ _ Hknown), Hentry, Hnone. reflexivity.
Qed.

Lemma score_without_path_witness :
  MultiTrack.get_score_mix_instruments Edge.index Edge.sonata_scores
    Edge.sonata_mtrack (MultiTrack.One "violin") = Raise ValueError.
Proof.
  eapply (score_without_path Edge.index Edge.sonata_scores
            Edge.sonata_mtrack (MultiTrack.One "violin")).
  - constructor; [simpl; tauto | constructor].
  - reflexivity.
  - reflexivity.
Defined.

(** X23.  With the empty list of instruments, [get_score_mix_instruments]
    reads every score file of the piece, in the order of the index, and
    merges them. *)
Theorem empty_request_reads_all_scores (index : dataset_index)
    (disk : text_disk) (self : MultiTrack.t) (entry : multitrack_entry) :
  assoc (MultiTrack.mtrack_id self) (ix_multitracks index) = Some entry ->
  MultiTrack.get_score_mix_instruments index disk self (MultiTrack.Many [])
  = (files <- mapM (MultiTrack.read_score disk (MultiTrack._data_home self))
                   (map (fun kv => ref_path (snd kv))
                        (filter (fun kv => PyStr.contains "score-" (fst kv))
                                (mt_files entry))) ;;
     MultiTrack.merge_scores files).
Proof.
  intros Hentry. unfold MultiTrack.get_score_mix_instruments. simpl.
  rewrite Hentry. unfold MultiTrack.score_paths.
  rewrite (filter_ext
             (fun kv => PyStr.contains "score-" (fst kv)
                        && MultiTrack.names_match [] (ref_path (snd kv)))
             (fun kv => PyStr.contains "score-" (fst kv))).
  - reflexivity.
  - intros kv. rewrite names_match_nil. apply andb_true_r.
Qed.

Lemma empty_request_reads_all_scores_witness :
  MultiTrack.get_score_mix_instruments Edge.index Edge.sonata_scores
    Edge.sonata_mtrack (MultiTrack.Many [])
  = Ok {| start_times := [0; 1];
          end_times := [1; 2];
          event := ["C4"; "D4"] |}.
Proof.
  rewrite (empty_request_reads_all_scores Edge.index Edge.sonata_scores
             Edge.sonata_mtrack _ eq_refl).
  reflexivity.
Defined.

(** ** What the score reader never raises *)

Lemma bind_no_assertion {A B : Type} (r : result A) (k : A -> result B) :
  r <> Raise AssertionError ->
  (forall a, k a <> Raise AssertionError) ->
  Py.bind r k <> Raise AssertionError.
Proof.
  intros Hr Hk. destruct r as [a|e]; simpl; [apply Hk |].
  intros He. apply Hr. injection He as ->. reflexivity.
Qed.

Lemma mapM_no_assertion {A B : Type} (f : A -> result B) (xs : list A) :
  (forall x, f x <> Raise AssertionError) ->
  mapM f xs <> Raise AssertionError.
Proof.
  intros Hf. induction xs as [|x xs IH]; simpl; [discriminate |].
  apply bind_no_assertion; [apply Hf |]. intros y.
  apply bind_no_assertion; [exact IH | discriminate].
Qed.

Lemma item_no_assertion {A : Type} (l : list A) (i : nat) :
  Track.item l i <> Raise AssertionError.
Proof. unfold Track.item. destruct (nth_error l i); discriminate. Qed.

Lemma row_no_assertion (line : string) :
  LoadTxt.row line <> Raise AssertionError.
Proof.
  unfold LoadTxt.row. destruct (LoadTxt.split_line line) as [|a vals];
    [discriminate |].
  destruct (nth_error (a :: vals) 0); [| discriminate].
  destruct (nth_error (a :: vals) 1); [| discriminate].
  destruct (PyFloat.parse s); [| discriminate].
  destruct (PyFloat.parse s0); discriminate.
Qed.

Lemma column_no_assertion (times : LoadTxt.ndarray) (j : nat) :
  LoadTxt.column times j <> Raise AssertionError.
Proof. destruct times, j as [|[|j]]; discriminate. Qed.

Lemma parse_score_no_assertion (content : string) :
  MultiTrack.parse_score content <> Raise AssertionError.
Proof.
  unfold MultiTrack.parse_score, LoadTxt.loadtxt.
  apply bind_no_assertion.
  - apply bind_no_assertion; [| discriminate].
    apply mapM_no_assertion, row_no_assertion.
  - intros times. apply bind_no_assertion; [apply column_no_assertion |].
    intros starts. apply bind_no_assertion; [apply column_no_assertion |].
    intros ends. apply bind_no_assertion; [| discriminate].
    apply mapM_no_assertion. intros line. unfold MultiTrack.note_of_line.
    apply bind_no_assertion; [apply item_no_assertion | discriminate].
Qed.

Lemma concatenate_no_assertion {A : Type} (arrays : list (list A)) :
  Np.concatenate arrays <> Raise AssertionError.
Proof. destruct arrays; discriminate. Qed.

Lemma take_along_axis_no_assertion {A : Type} (arr : list A)
    (ind : list nat) :
  Np.take_along_axis arr ind <> Raise AssertionError.
Proof.
  apply mapM_no_assertion. intros i. destruct (nth_error arr i); discriminate.
Qed.

Lemma merge_scores_no_assertion (files : list MultiTrack.score_file) :
  MultiTrack.merge_scores files <> Raise AssertionError.
Proof.
  unfold MultiTrack.merge_scores.
  repeat (apply bind_no_assertion;
          [first [apply concatenate_no_assertion
                 | apply take_along_axis_no_assertion] | intros ?]).
  discriminate.
Qed.

(** X24.  The property [scores] never fails the membership assertion:
    each name it asks for is taken from the piece's own instrument list.
    Whatever ends it is an error of reading or merging the files. *)
Theorem scores_never_AssertionError (index : dataset_index)
    (disk : text_disk) (self : MultiTrack.t) :
  MultiTrack.scores index disk self <> Raise AssertionError.
Proof.
  unfold MultiTrack.scores.
  assert (Hknown : forall name, In name (MultiTrack.instruments self) ->
            MultiTrack.get_score_mix_instruments index disk self
              (MultiTrack.One name) <> Raise AssertionError).
  { intros name Hname. unfold MultiTrack.get_score_mix_instruments.
    rewrite all_known_true by (repeat constructor; exact Hname).
    destruct (assoc _ (ix_multitracks index)); [| discriminate].
    apply bind_no_assertion; [| apply merge_scores_no_assertion].
    apply mapM_no_assertion. intros path. unfold MultiTrack.read_score.
    destruct (disk _); [apply parse_score_no_assertion | discriminate]. }
  induction (MultiTrack.instruments self) as [|name l IH]; simpl;
    [discriminate |].
  apply bind_no_assertion; [apply Hknown; left; reflexivity |].
  intros d. apply bind_no_assertion; [| discriminate].
  apply IH. intros n Hn. apply Hknown. right. exact Hn.
Qed.

(** ** The note label of a line *)

Lemma lstrip_no_newline (s : string) :
  free_of PyStr.newline s -> PyStr.lstrip PyStr.is_newline s = s.
Proof.
  unfold free_of. destruct s as [|a s]; simpl; [reflexivity |].
  intros Hfree. unfold PyStr.is_newline.
  destruct (Ascii.eqb_spec a PyStr.newline) as [->|_]; [tauto | reflexivity].
Qed.

Lemma rstrip_no_newline (s : string) :
  free_of PyStr.newline s -> PyStr.rstrip PyStr.is_newline s = s.
Proof.
  unfold free_of. induction s as [|a s IH]; simpl; [reflexivity |].
  intros Hfree. rewrite IH by tauto. unfold PyStr.is_newline.
  destruct (Ascii.eqb_spec a PyStr.newline) as [->|_]; [tauto |].
  destruct s; reflexivity.
Qed.

Lemma rstrip_final_newline (s : string) :
  free_of PyStr.newline s ->
  PyStr.rstrip PyStr.is_newline (s ++ String PyStr.newline EmptyString) = s.
Proof.
  unfold free_of. induction s as [|a s IH]; simpl; [reflexivity |].
  intros Hfree. rewrite IH by tauto. unfold PyStr.is_newline.
  destruct (Ascii.eqb_spec a PyStr.newline) as [->|_]; [tauto |].
  destruct s; reflexivity.
Qed.

Lemma strip_final_newline (s : string) :
  free_of PyStr.newline s ->
  PyStr.strip PyStr.is_newline (s ++ String PyStr.newline EmptyString) = s.
Proof.
  intros Hfree. unfold PyStr.strip. destruct s as [|a s]; [reflexivity |].
  assert (Ha : PyStr.is_newline a = false).
  { unfold free_of in Hfree. simpl in Hfree. unfold PyStr.is_newline.
    destruct (Ascii.eqb_spec a PyStr.newline) as [->|_]; [tauto | reflexivity]. }
  change (PyStr.lstrip PyStr.is_newline
            (String a s ++ String PyStr.newline EmptyString))
    with (if PyStr.is_newline a
          then PyStr.lstrip PyStr.is_newline
                 (s ++ String PyStr.newline EmptyString)
          else String a s ++ String PyStr.newline EmptyString).
  rewrite Ha. apply rstrip_final_newline, Hfree.
Qed.

(** X25.  The note of a line is its third comma-separated field without
    its line terminator: a line [start,end,label] gives [label], with or
    without the final newline, and fields after the third are dropped. *)
Theorem note_is_third_field (start stop label rest : string) :
  free_of "," start -> free_of "," stop -> free_of "," label ->
  free_of PyStr.newline label ->
  MultiTrack.note_of_line
    (start ++ "," ++ stop ++ "," ++ label ++ String PyStr.newline EmptyString)
  = Ok label /\
  MultiTrack.note_of_line (start ++ "," ++ stop ++ "," ++ label) = Ok label /\
  MultiTrack.note_of_line
    (start ++ "," ++ stop ++ "," ++ label ++ "," ++ rest) = Ok label.
Proof.
  intros Hs He Hl Hn. unfold MultiTrack.note_of_line.
  assert (Hline : free_of "," (label ++ String PyStr.newline EmptyString)).
  { unfold free_of in *. clear - Hl.
    induction label as [|a l IH]; simpl in *; [intuition discriminate |].
    intros [Ha|Hin]; [tauto | apply IH; tauto]. }
  repeat split.
  - change (start ++ "," ++ stop ++ "," ++ label
              ++ String PyStr.newline EmptyString)
      with (start ++ String ","
              (stop ++ String ","
                 (label ++ String PyStr.newline EmptyString))).
    rewrite !split_app, (split_free _ _ Hs), (split_free _ _ He),
      (split_free _ _ Hline).
    simpl. rewrite (strip_final_newline _ Hn). reflexivity.
  - change (start ++ "," ++ stop ++ "," ++ label)
      with (start ++ String "," (stop ++ String "," label)).
    rewrite !split_app, (split_free _ _ Hs), (split_free _ _ He),
      (split_free _ _ Hl).
    simpl. unfold PyStr.strip.
    rewrite (lstrip_no_newline _ Hn), (rstrip_no_newline _ Hn). reflexivity.
  - change (start ++ "," ++ stop ++ "," ++ label ++ "," ++ rest)
      with (start ++ String ","
              (stop ++ String "," (label ++ String "," rest))).
    rewrite !split_app, (split_free _ _ Hs), (split_free _ _ He),
      (split_free _ _ Hl).
    simpl. unfold PyStr.strip.
    rewrite (lstrip_no_newline _ Hn), (rstrip_no_newline _ Hn). reflexivity.
Qed.

Lemma note_is_third_field_witness :
  MultiTrack.note_of_line
    ("0.0,1.0,C4" ++ String PyStr.newline EmptyString) = Ok "C4".
Proof.
  apply (proj1 (note_is_third_field "0.0" "1.0" "C4" EmptyString
                  ltac:(unfold free_of; simpl; intuition discriminate)
                  ltac:(unfold free_of; simpl; intuition discriminate)
                  ltac:(unfold free_of; simpl; intuition discriminate)
                  ltac:(unfold free_of; simpl; intuition discriminate))).
Defined.

(** ** The merge of well-formed files, on the sample piece *)

Lemma score_mix_of_read_files_witness :
  exists d,
    MultiTrack.get_score_mix_instruments Sample.index Sample.score_files
      Sample.mozart_mtrack (MultiTrack.Many ["violin"; "oboe"]) = Ok d /\
    Sorted Qle (start_times d) /\
    length (events d) = 5%nat.
Proof.
  destruct (score_mix_of_read_files Sample.index Sample.score_files
              Sample.mozart_mtrack (MultiTrack.Many ["violin"; "oboe"])
              Sample.mozart
              [ {| MultiTrack.sf_start := [0; 1];
                   MultiTrack.sf_end := [1; 2];
                   MultiTrack.sf_notes := ["C4"; "D4"] |};
                {| MultiTrack.sf_start := [1 # 2; 5 # 2; 1 # 4];
                   MultiTrack.sf_end := [3 # 4; 3; 1 # 2];
                   MultiTrack.sf_notes := ["A4"; "B4"; "G4"] |} ])
    as [d [Hd [_ [Hsorted Hcount]]]].
  - constructor; [simpl; tauto |]. constructor; [simpl; tauto |].
    constructor.
  - reflexivity.
  - reflexivity.
  - discriminate.
  - repeat constructor.
  - exists d. split; [exact Hd |]. split; [exact Hsorted | exact Hcount].
Defined.

(** ** Instrument names from well-formed score keys *)

Lemma prefix_append (a b : string) : prefix a (a ++ b) = true.
Proof.
  induction a as [|c a IH]; simpl; [destruct b; reflexivity |].
  destruct (ascii_dec c c); [exact IH | congruence].
Qed.

Lemma contains_prefix (sub s : string) :
  prefix sub s = true -> PyStr.contains sub s = true.
Proof.
  intros Hp. destruct s; unfold PyStr.contains; fold PyStr.contains;
    rewrite Hp; reflexivity.
Qed.

(** X27.  When the keys of a piece's entry are pairwise distinct and
    each key that contains ['score-'] is ['score-'] followed by a name
    free of ['score-'], the instruments of a constructed MultiTrack are
    these names, none of them twice. *)
Theorem instruments_of_score_keys (index : dataset_index)
    (mtrack_id data_home : string) (entry : multitrack_entry)
    (self : MultiTrack.t) :
  assoc mtrack_id (ix_multitracks index) = Some entry ->
  MultiTrack.init index mtrack_id data_home = Ok self ->
  NoDup (keys (mt_files entry)) ->
  (forall key, In key (keys (mt_files entry)) ->
     PyStr.contains "score-" key = true -> score_key key) ->
  NoDup (MultiTrack.instruments self) /\
  (forall name,
     In name (MultiTrack.instruments self) <->
     In ("score-" ++ name) (keys (mt_files entry)) /\
     PyStr.contains "score-" name = false).
Proof.
  intros Hentry Hinit Hkeys Hshape.
  destruct (init_Ok_fields _ _ _ _ Hinit) as [entry' [Hentry' [Hins _]]].
  rewrite Hentry in Hentry'. injection Hentry' as <-.
  rewrite Hins. unfold MultiTrack.derive_instruments.
  fold (score_names entry). split.
  - apply sorted_NoDup, score_names_NoDup; assumption.
  - intros name. rewrite sorted_In. unfold score_names.
    rewrite in_map_iff. split.
    + intros [key [Hname Hkey]]. apply filter_In in Hkey.
      destruct Hkey as [Hin Hscore].
      destruct (Hshape key Hin Hscore) as [n [-> Hn]].
      rewrite (replace_score_key _ Hn) in Hname. subst n. auto.
    + intros [Hin Hn]. exists ("score-" ++ name).
      split; [apply replace_score_key, Hn |].
      apply filter_In. split; [exact Hin |].
      apply contains_prefix, prefix_append.
Qed.

Lemma instruments_of_score_keys_witness :
  exists self,
    MultiTrack.init Sample.index "etude" Sample.data_home = Ok self /\
    NoDup (MultiTrack.instruments self).
Proof.
  eexists. split; [reflexivity |].
  apply (proj1 (instruments_of_score_keys Sample.index "etude"
                  Sample.data_home Sample.etude _ eq_refl eq_refl
                  ltac:(repeat constructor; simpl; intuition discriminate)
                  ltac:(simpl; intros key [<-|[<-|[<-|[]]]] _;
                        [exists "violin" | exists "oboe" | exists "trumpet"];
                        split; reflexivity))).
Defined.
